(** * lokiunimore: a verification development

    A shallow embedding of the three source files of the repository

    - [lokiunimore/matrix/extensions.py]  (module [Matrix] below),
    - [lokiunimore/sql/__init__.py]       (module [Sql]),
    - [lokiunimore/web/__init__.py]       (module [Web]),

    together with the small part of the Python runtime they lean on
    (module [Py]: strings, JSON values, exceptions; module [Hashlib]:
    SHA-1 and the [hmac] object). *)

From Stdlib Require Import ZArith NArith Lia String Ascii List DecimalString.
From stdpp Require Import base option list gmap.
Import ListNotations.

#[local] Set Warnings "-register-all".
Local Open Scope N_scope.

(* ===================================================================== *)
(** * The Python values the program handles *)
(* ===================================================================== *)

Module Py.

(** A Python [str] is a sequence of code points, a [bytes] object a
    sequence of octets. *)
Definition codepoint := N.
Definition pystr := list codepoint.
Definition bytes := list N.

(** ASCII literals of the source text. *)
Definition lit (s : string) : pystr :=
  map N_of_ascii (list_ascii_of_string s).
Arguments lit : simpl never.

(** [s.encode("utf8")]: surrogates (and anything above U+10FFFF) cannot be
    encoded, Python raises [UnicodeEncodeError] there. *)
Definition utf8_codepoint (c : codepoint) : option bytes :=
  if c <? 0x80 then Some [c]
  else if c <? 0x800 then
    Some [N.lor 0xC0 (N.shiftr c 6); N.lor 0x80 (N.land c 0x3F)]
  else if c <? 0x10000 then
    if (0xD800 <=? c) && (c <=? 0xDFFF) then None
    else Some [N.lor 0xE0 (N.shiftr c 12);
               N.lor 0x80 (N.land (N.shiftr c 6) 0x3F);
               N.lor 0x80 (N.land c 0x3F)]
  else if c <? 0x110000 then
    Some [N.lor 0xF0 (N.shiftr c 18);
          N.lor 0x80 (N.land (N.shiftr c 12) 0x3F);
          N.lor 0x80 (N.land (N.shiftr c 6) 0x3F);
          N.lor 0x80 (N.land c 0x3F)]
  else None.

Fixpoint encode_utf8 (s : pystr) : option bytes :=
  match s with
  | [] => Some []
  | c :: rest =>
      match utf8_codepoint c, encode_utf8 rest with
      | Some b, Some bs => Some (b ++ bs)
      | _, _ => None
      end
  end.

(** [str(n)] for an [int]. *)
Definition str_of_int (n : Z) : pystr :=
  lit (NilZero.string_of_int (Z.to_int n)).

(** [str(b).lower()] for a [bool]. *)
Definition lower_str_of_bool (b : bool) : pystr :=
  if b then lit "true" else lit "false".

(** JSON documents as [json.load] / [aiohttp]'s [.json()] hand them to the
    program: [None], [bool], [int], [str], [list] and [dict] (a [dict]
    keeps its insertion order). *)
Inductive json : Type :=
| JNull
| JBool (b : bool)
| JNum (n : Z)
| JStr (s : pystr)
| JArr (items : list json)
| JObj (fields : list (pystr * json)).

(** Python truthiness, as used by [if current:] and [if not current:]. *)
Definition truthy (v : json) : bool :=
  match v with
  | JNull => false
  | JBool b => b
  | JNum n => negb (n =? 0)%Z
  | JStr s => negb (bool_decide (s = []))
  | JArr l => match l with [] => false | _ => true end
  | JObj d => match d with [] => false | _ => true end
  end.

(** A [dict] holds a key once, in the order of insertion; [dict_lookup]
    finds the value of a key. *)
Fixpoint dict_lookup (k : pystr) (d : list (pystr * json)) : option json :=
  match d with
  | [] => None
  | (k', v) :: rest =>
      if bool_decide (k' = k) then Some v else dict_lookup k rest
  end.

(** [d[k] = v] on a [dict]: an existing key keeps its position. *)
Fixpoint dict_set (k : pystr) (v : json) (d : list (pystr * json))
  : list (pystr * json) :=
  match d with
  | [] => [(k, v)]
  | (k', v') :: rest =>
      if bool_decide (k' = k) then (k, v) :: rest
      else (k', v') :: dict_set k v rest
  end.

Definition dict_keys (d : list (pystr * json)) : list pystr := map fst d.

(** The exceptions the program can raise or let through. *)
Inductive exn : Type :=
| ClientResponseError (status : N)
| ContentTypeError
| KeyError (key : pystr)
| TypeError
| AttributeError
| UnicodeEncodeError
| RequestError
| PlainException (msg : pystr)
| FileNotFoundError
| JSONDecodeError
| CancelledError
| IntegrityError
| OtherError (tag : N).

(** The end of a call: it returns, or an exception leaves it. *)
Inductive outcome (A : Type) : Type :=
| Return (a : A)
| Raise (e : exn).
Arguments Return {A} a.
Arguments Raise {A} e.

(** [x[k]]: [KeyError] on a [dict] without the key, [TypeError] on
    anything that is not a [dict] (a [list] or [str] indexed by a [str],
    or a value that cannot be subscripted). *)
Definition getitem (x : json) (k : pystr) : outcome json :=
  match x with
  | JObj d =>
      match dict_lookup k d with
      | Some v => Return v
      | None => Raise (KeyError k)
      end
  | _ => Raise TypeError
  end.

(** [x.get(k)]: [None] when the key is missing; only a [dict] has the
    method. *)
Definition get (x : json) (k : pystr) : outcome json :=
  match x with
  | JObj d =>
      match dict_lookup k d with
      | Some v => Return v
      | None => Return JNull
      end
  | _ => Raise AttributeError
  end.

(** [[*x]]: the items of a [list], the characters of a [str], the keys
    of a [dict]; the other values are not iterable. *)
Definition unpack (x : json) : outcome (list json) :=
  match x with
  | JArr l => Return l
  | JStr s => Return (map (fun c => JStr [c]) s)
  | JObj d => Return (map JStr (dict_keys d))
  | _ => Raise TypeError
  end.

(** [s.encode("utf8")] on a [str]... *)
Definition str_encode (s : pystr) : outcome bytes :=
  match encode_utf8 s with
  | Some b => Return b
  | None => Raise UnicodeEncodeError
  end.

(** ... and on a value read from JSON, which has the method only when it
    is a [str]. *)
Definition encode (x : json) : outcome bytes :=
  match x with
  | JStr s => str_encode s
  | _ => Raise AttributeError
  end.

End Py.

(* ===================================================================== *)
(** * [hashlib.sha1] and [hmac] *)
(* ===================================================================== *)

Module Hashlib.
Import Py.

Definition mask32 : N := 0xFFFFFFFF.
Definition add32 (x y : N) : N := (x + y) mod 2 ^ 32.
Definition rotl32 (n x : N) : N :=
  N.lor (N.land (N.shiftl x n) mask32) (N.shiftr x (32 - n)).
Definition not32 (x : N) : N := N.lxor x mask32.

(** Big-endian octets of a number, [n] of them. *)
Fixpoint be_bytes (n : nat) (x : N) : bytes :=
  match n with
  | O => []
  | S n' => N.land (N.shiftr x (8 * N.of_nat n')) 0xFF :: be_bytes n' x
  end.

Definition be_word (b : bytes) : N :=
  fold_left (fun acc x => N.lor (N.shiftl acc 8) x) b 0.

(** FIPS 180-4, 5.1.1: one bit, zeros up to 448 mod 512, the length
    in bits on 64 bits. *)
Definition pad (msg : bytes) : bytes :=
  let l := N.of_nat (length msg) in
  let k := Z.to_nat ((55 - Z.of_N l) mod 64)%Z in
  msg ++ [0x80] ++ repeat 0 k ++ be_bytes 8 (8 * l).

Fixpoint chunks (fuel : nat) (size : nat) (l : bytes) : list bytes :=
  match fuel with
  | O => []
  | S fuel' =>
      match l with
      | [] => []
      | _ => take size l :: chunks fuel' size (drop size l)
      end
  end.

Definition words (block : bytes) : list N :=
  map be_word (chunks 16 4 block).

Definition schedule (block : bytes) : list N :=
  fold_left
    (fun W t =>
       W ++ [rotl32 1 (N.lxor (N.lxor (nth (t - 3) W 0) (nth (t - 8) W 0))
                              (N.lxor (nth (t - 14) W 0) (nth (t - 16) W 0)))])
    (seq 16 64) (words block).

Definition f (t : nat) (b c d : N) : N :=
  if (t <? 20)%nat then N.lor (N.land b c) (N.land (not32 b) d)
  else if (t <? 40)%nat then N.lxor (N.lxor b c) d
  else if (t <? 60)%nat then
    N.lor (N.lor (N.land b c) (N.land b d)) (N.land c d)
  else N.lxor (N.lxor b c) d.

Definition K (t : nat) : N :=
  if (t <? 20)%nat then 0x5A827999
  else if (t <? 40)%nat then 0x6ED9EBA1
  else if (t <? 60)%nat then 0x8F1BBCDC
  else 0xCA62C1D6.

Definition state : Type := N * N * N * N * N.

Definition round (s : state) (tw : nat * N) : state :=
  let '(a, b, c, d, e) := s in
  let '(t, w) := tw in
  let temp := add32 (add32 (add32 (add32 (rotl32 5 a) (f t b c d)) e) (K t)) w in
  (temp, a, rotl32 30 b, c, d).

Definition compress (h : state) (block : bytes) : state :=
  let '(h0, h1, h2, h3, h4) := h in
  let '(a, b, c, d, e) :=
    fold_left round (combine (seq 0 80) (schedule block)) h in
  (add32 h0 a, add32 h1 b, add32 h2 c, add32 h3 d, add32 h4 e).

Definition initial : state :=
  (0x67452301, 0xEFCDAB89, 0x98BADCFE, 0x10325476, 0xC3D2E1F0).

(** [hashlib.sha1(msg).digest()]. *)
Definition sha1 (msg : bytes) : bytes :=
  let padded := pad msg in
  let '(h0, h1, h2, h3, h4) :=
    fold_left compress (chunks (length padded) 64 padded) initial in
  be_bytes 4 h0 ++ be_bytes 4 h1 ++ be_bytes 4 h2 ++ be_bytes 4 h3
    ++ be_bytes 4 h4.
Arguments sha1 : simpl never.

Definition hex_digit (n : N) : codepoint :=
  if n <? 10 then 48 + n else 87 + n.

(** [bytes.hex()]: two lower-case digits per octet. *)
Definition hex (b : bytes) : pystr :=
  flat_map (fun x => [hex_digit (x / 16); hex_digit (x mod 16)]) b.
Arguments hex : simpl never.

(** A hash object: what has been fed to it so far. *)
Record hash := { fed : bytes }.
Definition hash_update (h : hash) (data : bytes) : hash :=
  {| fed := fed h ++ data |}.
Definition hash_digest (h : hash) : bytes := sha1 (fed h).

(** The [hmac.HMAC] object of the standard library, over SHA-1:
    an inner and an outer hash, both primed with the padded key. *)
Record HMAC := { inner : hash; outer : hash }.

Definition block_size : nat := 64.

Definition ljust (n : nat) (b : bytes) : bytes :=
  b ++ repeat 0 (n - length b).

Definition hmac_new (key : bytes) : HMAC :=
  let key := if (block_size <? length key)%nat then sha1 key else key in
  let key := ljust block_size key in
  {| outer := hash_update {| fed := [] |} (map (N.lxor 0x5C) key);
     inner := hash_update {| fed := [] |} (map (N.lxor 0x36) key) |}.

Definition hmac_update (m : HMAC) (msg : bytes) : HMAC :=
  {| inner := hash_update (inner m) msg; outer := outer m |}.

Definition hmac_digest (m : HMAC) : bytes :=
  hash_digest (hash_update (outer m) (hash_digest (inner m))).

Definition hmac_hexdigest (m : HMAC) : pystr := hex (hmac_digest m).

(** The key of RFC 2104, brought to the block size and masked. *)
Definition keyed (pad_byte : N) (key : bytes) : bytes :=
  map (N.lxor pad_byte)
    (ljust 64 (if (64 <? length key)%nat then sha1 key else key)).

(** The reference: HMAC of RFC 2104 with SHA-1 as the hash,
    [H((K' xor opad) || H((K' xor ipad) || text))]. *)
Definition hmac_sha1_reference (key text : bytes) : bytes :=
  sha1 (keyed 0x5C key ++ sha1 (keyed 0x36 key ++ text)).

End Hashlib.

(* ===================================================================== *)
(** * [lokiunimore/matrix/extensions.py] *)
(* ===================================================================== *)

Module Matrix.
Import Py Hashlib.

(** ** The homeserver, seen from the client *)

(** What [nio.Api._build_path(path, query, base_path)] is given; the
    percent-encoding into one string is left to the library. *)
Record Url := {
  base_path : pystr;
  segments : list pystr;
  query : list (pystr * json)
}.

Definition _build_path (path : list pystr) (query : list (pystr * json))
    (base_path : pystr) : Url :=
  {| base_path := base_path; segments := path; query := query |}.

(** A request handed to [self.send]; [data] is the document that
    [nio.Api.to_json] serialises. *)
Record Request := {
  method : pystr;
  url : Url;
  data : option json;
  headers : list (pystr * pystr)
}.

(** An [aiohttp.ClientResponse]: its status and what [.json()] reads from
    its body ([None] when the body is not JSON). *)
Record Response := {
  status : N;
  body : option json
}.

(** The responses of [nio] that the program tells apart; the two error
    classes derive from [nio.responses.ErrorResponse]. *)
Inductive nio_response : Type :=
| LoginResponse (user_id device_id access_token : pystr)
| LoginError (message : pystr)
| RoomCreateResponse (room_id : pystr)
| RoomCreateError (message : pystr)
| OtherResponse (content : json)
| ErrorResponse (message : pystr).

Definition is_ErrorResponse (r : nio_response) : bool :=
  match r with
  | LoginError _ | RoomCreateError _ | ErrorResponse _ => true
  | _ => false
  end.

(** What the client asks of the homeserver. *)
Inductive call : Type :=
| Send (r : Request)
| LoginRaw (auth_dict : json)
| RoomCreate (invite : list pystr) (is_direct : bool).

(** The homeserver is scripted: the HTTP responses it will give to
    [self.send], in order, the results of the awaited SDK calls, in order,
    and the log of what it has been asked. *)
Record Homeserver := {
  http : list Response;
  sdk : list (outcome nio_response);
  log : list call
}.

Definition homeserver (http : list Response)
    (sdk : list (outcome nio_response)) : Homeserver :=
  {| http := http; sdk := sdk; log := [] |}.

(** A client coroutine: run against the homeserver it ends in an outcome,
    or is left awaiting an answer the script does not hold ([None]). *)
Definition io (A : Type) : Type :=
  Homeserver -> option (outcome A) * Homeserver.

Definition ret {A} (a : A) : io A := fun hs => (Some (Return a), hs).
Definition raise {A} (e : exn) : io A := fun hs => (Some (Raise e), hs).
Definition lift {A} (o : outcome A) : io A := fun hs => (Some o, hs).
Definition awaiting {A} : io A := fun hs => (None, hs).

Definition bind {A B} (m : io A) (k : A -> io B) : io B :=
  fun hs =>
    match m hs with
    | (Some (Return a), hs') => k a hs'
    | (Some (Raise e), hs') => (Some (Raise e), hs')
    | (None, hs') => (None, hs')
    end.

Notation "x <~ m ;; k" := (bind m (fun x => k))
  (at level 100, m at next level, right associativity).

(** [await self.send(method, path, data, headers)]. *)
Definition send (method : pystr) (path : Url) (data : option json)
    (headers : list (pystr * pystr)) : io Response :=
  fun hs =>
    let rq := {| method := method; url := path; data := data;
                 headers := headers |} in
    match http hs with
    | [] => (None, {| http := []; sdk := sdk hs;
                      log := log hs ++ [Send rq] |})
    | r :: rest => (Some (Return r),
                    {| http := rest; sdk := sdk hs;
                       log := log hs ++ [Send rq] |})
    end.

Definition sdk_call (c : call) : io nio_response :=
  fun hs =>
    match sdk hs with
    | [] => (None, {| http := http hs; sdk := []; log := log hs ++ [c] |})
    | o :: rest => (Some o, {| http := http hs; sdk := rest;
                               log := log hs ++ [c] |})
    end.

(** [await self.login_raw(auth_dict)] and
    [await self.room_create(invite=..., is_direct=...)]. *)
Definition login_raw (auth_dict : json) : io nio_response :=
  sdk_call (LoginRaw auth_dict).
Definition room_create (invite : list pystr) (is_direct : bool)
  : io nio_response :=
  sdk_call (RoomCreate invite is_direct).

(** [response.raise_for_status()]: [aiohttp] raises
    [ClientResponseError] from status 400 on. *)
Definition raise_for_status (r : Response) : outcome unit :=
  if 400 <=? status r then Raise (ClientResponseError (status r))
  else Return tt.

(** [await response.json()]. *)
Definition response_json (r : Response) : outcome json :=
  match body r with
  | Some doc => Return doc
  | None => Raise ContentTypeError
  end.

(** ** The client *)

(** A room as [nio] keeps it. [room.users] is a dict of all the members of
    the room by user id, each with its [invited] flag; [room.invited_users]
    is the dict of those of them that are invited ([add_member] puts an
    invited member into both dicts). *)
Record MatrixRoom := {
  room_id : pystr;
  tags : list pystr;
  is_group : bool;
  members : gmap pystr bool
}.

Definition users (room : MatrixRoom) : gmap pystr bool := members room.

Definition invited_users (room : MatrixRoom) : gmap pystr bool :=
  filter (fun member : pystr * bool => member.2 = true) (members room).

Record ExtendedClient := {
  user : pystr;
  device_id : pystr;
  access_token : pystr;
  store_path : pystr;
  next_batch : json;
  rooms : list (pystr * MatrixRoom)
}.

Definition set_next_batch (self : ExtendedClient) (v : json)
  : ExtendedClient :=
  {| user := user self; device_id := device_id self;
     access_token := access_token self; store_path := store_path self;
     next_batch := v; rooms := rooms self |}.

(** ** [register_with_shared_secret] *)

Definition register_with_shared_secret
    (shared_secret username displayname password : pystr) : io unit :=
  let path := _build_path [lit "v1"; lit "register"] []
                (lit "/_synapse/admin") in
  nonce <~ send (lit "GET") path None [] ;;
  _ <~ lift (raise_for_status nonce) ;;
  nonce <~ lift (response_json nonce) ;;
  nonce <~ lift (getitem nonce (lit "nonce")) ;;
  key <~ lift (str_encode shared_secret) ;;
  let mac := hmac_new key in
  b <~ lift (encode nonce) ;;
  let mac := hmac_update mac b in
  let mac := hmac_update mac [0] in
  b <~ lift (str_encode username) ;;
  let mac := hmac_update mac b in
  let mac := hmac_update mac [0] in
  b <~ lift (str_encode password) ;;
  let mac := hmac_update mac b in
  let mac := hmac_update mac [0] in
  let mac := hmac_update mac (lit "notadmin") in
  registration <~ send (lit "POST") path
    (Some (JObj [(lit "nonce", nonce);
                 (lit "username", JStr username);
                 (lit "displayname", JStr displayname);
                 (lit "password", JStr password);
                 (lit "admin", JBool false);
                 (lit "mac", JStr (hmac_hexdigest mac))])) [] ;;
  _ <~ lift (raise_for_status registration) ;;
  ret tt.

(** ** [login_with_shared_secret] *)

Section Login.
(** [hmac.new(key=..., msg=..., digestmod=hashlib.sha512).hexdigest()],
    a function of the key and of the message. *)
Variable hmac_sha512_hexdigest : bytes -> bytes -> pystr.

(** [raise response] with a [LoginError], which is no exception class:
    Python raises [TypeError] in its place. The [breakpoint()] before it
    stops in the debugger and goes on from there. *)
Definition login_with_shared_secret (self : ExtendedClient)
    (shared_secret : pystr) : io unit :=
  key <~ lift (str_encode shared_secret) ;;
  msg <~ lift (str_encode (user self)) ;;
  let token := hmac_sha512_hexdigest key msg in
  response <~ login_raw
    (JObj [(lit "type", JStr (lit "com.devture.shared_secret_auth"));
           (lit "identifier",
             JObj [(lit "type", JStr (lit "m.id.user"));
                   (lit "user", JStr (user self))]);
           (lit "token", JStr token);
           (lit "initial_device_display_name", JStr (device_id self))]) ;;
  match response with
  | LoginError _ => raise TypeError
  | _ => ret tt
  end.
End Login.

(** ** [room_hierarchy] *)

(** One turn of the [while True] loop: [inl] goes round again with the new
    [current] and [rooms], [inr] is the [break]. *)
Definition hierarchy_page (self : ExtendedClient) (room_id : pystr)
    (max_depth : Z) (suggested_only : bool)
    (current : json) (rooms : list json)
  : io (json * list json + list json) :=
  let path := [lit "rooms"; room_id; lit "hierarchy"] in
  let query := [(lit "max_depth", JStr (str_of_int max_depth));
                (lit "suggested_only",
                  JStr (lower_str_of_bool suggested_only))] in
  let query := if truthy current
               then dict_set (lit "from") current query else query in
  result <~ send (lit "GET")
    (_build_path path query (lit "/_matrix/client/v1")) None
    [(lit "Authorization", lit "Bearer " ++ access_token self)] ;;
  result <~ lift (response_json result) ;;
  page <~ lift (getitem result (lit "rooms")) ;;
  page <~ lift (unpack page) ;;
  let rooms := rooms ++ page in
  current <~ lift (get result (lit "next_batch")) ;;
  if negb (truthy current) then ret (inr rooms)
  else ret (inl (current, rooms)).

(** The loop; every turn awaits one response, so [fuel] beyond the number
    of scripted responses is never used up. *)
Fixpoint hierarchy_loop (fuel : nat) (self : ExtendedClient)
    (room_id : pystr) (max_depth : Z) (suggested_only : bool)
    (current : json) (rooms : list json) : io (list json) :=
  match fuel with
  | O => awaiting
  | S fuel' =>
      step <~ hierarchy_page self room_id max_depth suggested_only
                current rooms ;;
      match step with
      | inr rooms => ret rooms
      | inl (current, rooms) =>
          hierarchy_loop fuel' self room_id max_depth suggested_only
            current rooms
      end
  end.

Definition room_hierarchy (self : ExtendedClient) (room_id : pystr)
    (max_depth : Z) (suggested_only : bool) : io (list json) :=
  fun hs =>
    hierarchy_loop (S (length (http hs))) self room_id max_depth
      suggested_only JNull [] hs.

(** ** The state file *)

(** A file, as [json.load] reads it: the document its text denotes, or
    text that is not JSON. [json.dump] writes the text of a document; the
    two library functions are taken as inverse to each other on documents,
    and the text itself is not modelled. *)
Inductive file : Type :=
| JsonText (doc : json)
| OtherText (text : pystr).

Inductive task_state : Type := Running | Cancelled.

(** What [dump_state], [load_state] and [sync_forever] do to the process
    around the client, in order. *)
Inductive effect : Type :=
| Mkdir (path : pystr)
| Loaded (path : pystr)
| TaskCreated (timeout : Z)
| Dumped (path : pystr) (doc : json)
| TaskCancel (msg : pystr).

(** The process: the files that the code of the client opens, by path
    (directories are not modelled, a write always goes through; what [nio]
    keeps of its own under the store path is not among them), the periodic
    dump task once it is created, and the effects so far. *)
Record Process := {
  files : gmap pystr file;
  dump_task : option task_state;
  effects : list effect
}.

Definition process (files : gmap pystr file) : Process :=
  {| files := files; dump_task := None; effects := [] |}.

(** [pathlib.Path] on POSIX: the root ([""], ["/"] or ["//"]) and the parts
    after it. *)
Record Path := { root : pystr; parts : list pystr }.

(** [s.split(sep)]. *)
Fixpoint str_split (sep : codepoint) (s : pystr) : list pystr :=
  match s with
  | [] => [[]]
  | c :: s' =>
      if c =? sep then [] :: str_split sep s'
      else match str_split sep s' with
           | [] => [[c]]
           | word :: words => (c :: word) :: words
           end
  end.

(** [sep.join(words)]. *)
Fixpoint str_join (sep : pystr) (words : list pystr) : pystr :=
  match words with
  | [] => []
  | [word] => word
  | word :: words => word ++ sep ++ str_join sep words
  end.

Definition slash : codepoint := 47.
Definition curdir : pystr := [46].

(** [posixpath.splitroot]: one leading slash is the root, exactly two are
    a root of their own, three or more are one. *)
Definition splitroot (s : pystr) : pystr * pystr :=
  match s with
  | c1 :: s1 =>
      if c1 =? slash then
        match s1 with
        | c2 :: s2 =>
            if c2 =? slash then
              match s2 with
              | c3 :: _ => if c3 =? slash then ([slash], s1)
                           else ([slash; slash], s2)
              | [] => ([slash; slash], s2)
              end
            else ([slash], s1)
        | [] => ([slash], s1)
        end
      else ([], s)
  | [] => ([], s)
  end.

(** [pathlib.Path(s)]: empty parts and ["."] parts are dropped. *)
Definition path_of (s : pystr) : Path :=
  let '(root, rel) := splitroot s in
  {| root := root;
     parts := filter (fun part => part <> [] /\ part <> curdir)
               (str_split slash rel) |}.

(** [a.joinpath(b)]: an absolute [b] replaces [a]. *)
Definition joinpath (a : Path) (b : pystr) : Path :=
  let b := path_of b in
  match root b with
  | [] => {| root := root a; parts := parts a ++ parts b |}
  | _ => b
  end.

(** [os.fspath(path)], the string that [open] and [mkdir] get. *)
Definition fspath (path : Path) : pystr :=
  match root path, parts path with
  | [], [] => curdir
  | root, parts => root ++ str_join [slash] parts
  end.
Arguments fspath : simpl never.

(** The [data] that [dump_state] hands to [json.dump]. *)
Definition state_data (self : ExtendedClient) : list (pystr * json) :=
  let data := [] in
  let data := dict_set (lit "next_batch") (next_batch self) data in
  data.

Definition dump_state (self : ExtendedClient) (path : pystr)
    (p : Process) : Process :=
  {| files := <[path := JsonText (JObj (state_data self))]> (files p);
     dump_task := dump_task p;
     effects := effects p ++ [Dumped path (JObj (state_data self))] |}.

(** One period of [_dump_state_regularly], after its [asyncio.sleep]. *)
Definition _dump_state_regularly_period (self : ExtendedClient)
    (p : Process) : Process :=
  let store_path := path_of (store_path self) in
  let state_path := joinpath store_path (lit "state.json") in
  dump_state self (fspath state_path) p.

Definition load_state (self : ExtendedClient) (path : pystr)
    (p : Process) : outcome ExtendedClient * Process :=
  match files p !! path with
  | None => (Raise FileNotFoundError, p)
  | Some (OtherText _) => (Raise JSONDecodeError, p)
  | Some (JsonText data) =>
      match getitem data (lit "next_batch") with
      | Return v =>
          (Return (set_next_batch self v),
           {| files := files p; dump_task := dump_task p;
              effects := effects p ++ [Loaded path] |})
      | Raise e => (Raise e, p)
      end
  end.

(** ** [sync_forever] *)

(** What happens while [nio]'s own [sync_forever] runs, as far as the code
    of the client is touched by it: a sync response moves the cursor, or
    the timer of the dump task fires. Then it ends. What [nio] writes into
    its own store meanwhile is left out. *)
Inductive sync_event : Type :=
| Synced (next_batch : json)
| TimerFired.

Inductive sync_end : Type :=
| SyncReturned
| SyncCancelled
| SyncRaised (e : exn).

Definition during_sync (sp : ExtendedClient * Process) (ev : sync_event)
  : ExtendedClient * Process :=
  let '(self, p) := sp in
  match ev with
  | Synced v => (set_next_batch self v, p)
  | TimerFired =>
      match dump_task p with
      | Some Running => (self, _dump_state_regularly_period self p)
      | _ => (self, p)
      end
  end.

Definition end_outcome (e : sync_end) : outcome unit :=
  match e with
  | SyncReturned => Return tt
  | SyncCancelled => Raise CancelledError
  | SyncRaised e => Raise e
  end.

Definition sync_forever (self : ExtendedClient)
    (events : list sync_event) (ending : sync_end) (p : Process)
  : outcome unit * ExtendedClient * Process :=
  let store_path := path_of (store_path self) in
  let state_path := fspath (joinpath store_path (lit "state.json")) in
  let p := {| files := files p; dump_task := dump_task p;
              effects := effects p ++ [Mkdir (fspath store_path)] |} in
  let proceed (self : ExtendedClient) (p : Process) :=
    let p := {| files := files p; dump_task := Some Running;
                effects := effects p ++ [TaskCreated 300000] |} in
    let '(self, p) := fold_left during_sync events (self, p) in
    (* finally: *)
    let p := {| files := files p; dump_task := Some Cancelled;
                effects := effects p
                  ++ [TaskCancel (lit "Client stopped syncing.")] |} in
    let p := dump_state self state_path p in
    (end_outcome ending, self, p) in
  match load_state self state_path p with
  | (Return self, p) => proceed self p
  | (Raise FileNotFoundError, p) => proceed self p
  | (Raise e, p) => (Raise e, self, p)
  end.

(** ** [pm_slide] *)

Definition is_pm_room (user_id : pystr) (room : MatrixRoom) : bool :=
  let is_dm := bool_decide (lit "m.direct" ∈ tags room) in
  let is_group := is_group room in
  let has_two_users :=
    (size (users room) + size (invited_users room) =? 2)%nat in
  let contains_user_id :=
    bool_decide (is_Some (users room !! user_id))
    || bool_decide (is_Some (invited_users room !! user_id)) in
  (is_dm || is_group) && has_two_users && contains_user_id.

(** The [for] loop over [self.rooms.values()], up to its [return]. *)
Fixpoint pm_slide_scan (user_id : pystr) (values : list MatrixRoom)
  : option pystr :=
  match values with
  | [] => None
  | room :: rest =>
      if is_pm_room user_id room then Some (room_id room)
      else pm_slide_scan user_id rest
  end.

Definition pm_slide (self : ExtendedClient) (user_id : pystr)
  : io pystr :=
  match pm_slide_scan user_id (map snd (rooms self)) with
  | Some found => ret found
  | None =>
      response <~ room_create [user_id] true ;;
      match response with
      | RoomCreateResponse created => ret created
      | _ => raise (PlainException
                      (lit "Failed to slide into an user's PMs."))
      end
  end.

(** ** [_send] *)

(** What a call can hand to the override: a response, or the coroutine
    object of an [async def] that was called and not awaited, which gives
    its response to the one who awaits it. *)
Inductive object : Type :=
| Instance (response : nio_response)
| Coroutine (awaited : nio_response).

(** [isinstance(result, nio.responses.ErrorResponse)]. *)
Definition isinstance_ErrorResponse (result : object) : bool :=
  match result with
  | Instance response => is_ErrorResponse response
  | Coroutine _ => false
  end.

(** [super()._send(...)]: [nio.AsyncClient._send] is an [async def], and the
    override, a plain [def], calls it without [await]. *)
Definition super__send (response : nio_response) : object :=
  Coroutine response.

(** The override, for a request that the homeserver answers with
    [response]. *)
Definition _send (response : nio_response) : outcome object :=
  let result := super__send response in
  if isinstance_ErrorResponse result then Raise RequestError
  else Return result.

End Matrix.

(* ===================================================================== *)
(** * [lokiunimore/sql/__init__.py] *)
(* ===================================================================== *)

Module Sql.
Import Py.

(** A row of [accounts]; [email] is the primary key, the two names are
    nullable. *)
Record Account := {
  email : pystr;
  first_name : option pystr;
  last_name : option pystr
}.

(** A row of [matrix_users]; [id] is the primary key, [token] is not
    nullable, [account_email] is a nullable foreign key to
    [accounts.email]. *)
Record MatrixUser := {
  id : pystr;
  token : pystr;
  account_email : option pystr
}.

(** The two tables, rows in storage order. *)
Record Database := {
  accounts : list Account;
  matrix_users : list MatrixUser
}.

(** [db.create_all()] on a fresh database. *)
Definition create_all : Database :=
  {| accounts := []; matrix_users := [] |}.

(** [INSERT INTO accounts]: the primary key rejects a second row with the
    same email. *)
Definition insert_account (a : Account) (db : Database)
  : outcome Database :=
  if bool_decide (email a ∈ map email (accounts db))
  then Raise IntegrityError
  else Return {| accounts := accounts db ++ [a];
                 matrix_users := matrix_users db |}.

(** [INSERT INTO matrix_users]: the primary key rejects a second row with
    the same id. *)
Definition insert_matrix_user (u : MatrixUser) (db : Database)
  : outcome Database :=
  if bool_decide (id u ∈ map id (matrix_users db))
  then Raise IntegrityError
  else Return {| accounts := accounts db;
                 matrix_users := matrix_users db ++ [u] |}.

(** [session.merge(Account(...))]: the row with that primary key takes
    the given state; without one, a new row is added. *)
Fixpoint merge_rows (a : Account) (rows : list Account) : list Account :=
  match rows with
  | [] => [a]
  | r :: rest =>
      if bool_decide (email r = email a) then a :: rest
      else r :: merge_rows a rest
  end.

Definition merge (a : Account) (db : Database) : Database :=
  {| accounts := merge_rows a (accounts db);
     matrix_users := matrix_users db |}.

(** [query(MatrixUser).filter_by(token=token).first()]. The query has no
    [ORDER BY]: among several rows with one token the engine is free in
    what it gives first, and the earliest row of the table stands for its
    choice here. Where the tokens of the table differ from each other the
    choice plays no part. *)
Fixpoint first_by_token (t : pystr) (rows : list MatrixUser)
  : option MatrixUser :=
  match rows with
  | [] => None
  | u :: rest =>
      if bool_decide (token u = t) then Some u else first_by_token t rest
  end.

Definition with_account (u : MatrixUser) (a : Account) : MatrixUser :=
  {| id := id u; token := token u; account_email := Some (email a) |}.

(** [matrix_user.account = account], flushed as
    [UPDATE matrix_users SET account_email = ? WHERE id = ?]. *)
Definition set_account (u : MatrixUser) (a : Account) (db : Database)
  : Database :=
  {| accounts := accounts db;
     matrix_users :=
       map (fun r => if bool_decide (id r = id u) then with_account r a
                     else r) (matrix_users db) |}.

(** [MatrixUser.account]: the account the foreign key points to. *)
Definition account_of (db : Database) (u : MatrixUser) : list Account :=
  match account_email u with
  | None => []
  | Some e => filter (fun a => email a = e) (accounts db)
  end.

(** [Account.matrix_users]: the users pointing to the account. *)
Definition matrix_users_of (db : Database) (a : Account)
  : list MatrixUser :=
  filter (fun u => account_email u = Some (email a)) (matrix_users db).

(** The SQLAlchemy session of one request: what is committed, and the
    state the request works on until it commits. *)
Record Session := {
  committed : Database;
  working : Database
}.

Definition begin (db : Database) : Session :=
  {| committed := db; working := db |}.
Definition commit (s : Session) : Session :=
  {| committed := working s; working := working s |}.
Definition change (f : Database -> Database) (s : Session) : Session :=
  {| committed := committed s; working := f (working s) |}.
(** The end of the request: what was not committed is rolled back. *)
Definition teardown (s : Session) : Database := committed s.

End Sql.

(* ===================================================================== *)
(** * [lokiunimore/web/__init__.py] *)
(* ===================================================================== *)

Module Web.
Import Py Sql.

(** The claims of the Google id token that the handler reads. *)
Record GoogleAccount := {
  g_email_verified : bool;
  g_email : pystr;
  given_name : option pystr;
  family_name : option pystr
}.

(** How [oauth.google.authorize_access_token()] and the parsing of the id
    token end. *)
Inductive oauth_result : Type :=
| BadRequestKeyError
| OAuthError
| Authorized (google_account : GoogleAccount).

(** The Flask session cookie. *)
Record FlaskSession := { matrix_token : option pystr }.

(** The four [details] texts of [error.html]. *)
Inductive error_details : Type :=
| MissingQueryParameters
| OAuthWentWrong
| EmailNotVerified
| NotInOrganization.

Inductive response : Type :=
| RootPage
| ProfilePage (user : MatrixUser) (token : pystr)
| ErrorPage (details : error_details) (status : N)
| RedirectToProfile (token : pystr)
| RedirectToGoogle
| NotFound
| NoResponse.

Definition dot_matches (c : codepoint) : bool := negb (c =? 10).

Fixpoint starts_with (prefix s : pystr) : bool :=
  match prefix, s with
  | [], _ => true
  | p :: prefix', c :: s' => (p =? c) && starts_with prefix' s'
  | _ :: _, [] => false
  end.

(** [(.+)lit] matched at the start of [s]: [taken] tells whether the
    group has taken a character already. *)
Fixpoint dot_plus_then (suffix : pystr) (taken : bool) (s : pystr) : bool :=
  (taken && starts_with suffix s)
  || match s with
     | [] => false
     | c :: rest => dot_matches c && dot_plus_then suffix true rest
     end.

(** [re.match(r"(.+)@studenti[.]unimore[.]it", email)]. *)
Definition re_match_studenti (email : pystr) : bool :=
  dot_plus_then (lit "@studenti.unimore.it") false email.

Definition page_root : response := RootPage.

Definition page_matrix_profile (token : pystr) (db : Database)
  : response :=
  match first_by_token token (matrix_users db) with
  | None => NotFound
  | Some user => ProfilePage user token
  end.

Definition page_matrix_link (token : pystr) (session : FlaskSession)
    (db : Database) : response * FlaskSession :=
  match first_by_token token (matrix_users db) with
  | None => (NotFound, session)
  | Some _ => (RedirectToGoogle, {| matrix_token := Some token |})
  end.

Definition page_oauth_authorize (oauth : oauth_result)
    (session : FlaskSession) (db : Database) : response * Database :=
  let s := begin db in
  match oauth with
  | BadRequestKeyError =>
      (ErrorPage MissingQueryParameters 200, teardown s)
  | OAuthError =>
      (ErrorPage OAuthWentWrong 200, teardown s)
  | Authorized google_account =>
      if negb (g_email_verified google_account) then
        (ErrorPage EmailNotVerified 403, teardown s)
      else if negb (re_match_studenti (g_email google_account)) then
        (ErrorPage NotInOrganization 403, teardown s)
      else
        let local_account :=
          {| email := g_email google_account;
             first_name := given_name google_account;
             last_name := family_name google_account |} in
        let s := change (merge local_account) s in
        match matrix_token session with
        | Some ((_ :: _) as matrix_token) =>
            match first_by_token matrix_token (matrix_users (working s)) with
            | None => (NotFound, teardown s)
            | Some matrix_user =>
                let s := change (set_account matrix_user local_account) s in
                let s := commit s in
                (RedirectToProfile matrix_token, teardown s)
            end
        | _ => (NoResponse, teardown s)
        end
  end.

(** The operations that reach the database: the four pages, and the
    inserts of rows, which the engine checks against the primary keys that
    the schema declares. *)
Inductive operation : Type :=
| GetRoot
| GetProfile (token : pystr)
| GetLink (token : pystr)
| GetAuthorize (oauth : oauth_result) (session : FlaskSession)
| InsertAccount (a : Account)
| InsertMatrixUser (u : MatrixUser).

Definition perform (op : operation) (db : Database) : Database :=
  match op with
  | GetRoot | GetProfile _ | GetLink _ => db
  | GetAuthorize oauth session =>
      snd (page_oauth_authorize oauth session db)
  | InsertAccount a =>
      match insert_account a db with Return db' => db' | Raise _ => db end
  | InsertMatrixUser u =>
      match insert_matrix_user u db with
      | Return db' => db'
      | Raise _ => db
      end
  end.

End Web.

(* ===================================================================== *)
(** * Reference values and sample runs *)
(* ===================================================================== *)

Import Py Hashlib Matrix Sql Web.

(** ** Registration *)

(** The message that the Synapse registration API authenticates for a user
    that is not an admin. *)
Definition registration_message (nonce username password : bytes) : bytes :=
  nonce ++ [0] ++ username ++ [0] ++ password ++ [0] ++ lit "notadmin".

Definition registration_body (nonce username displayname password mac : pystr)
  : json :=
  JObj [(lit "nonce", JStr nonce);
        (lit "username", JStr username);
        (lit "displayname", JStr displayname);
        (lit "password", JStr password);
        (lit "admin", JBool false);
        (lit "mac", JStr mac)].

Definition register_path : Url :=
  _build_path [lit "v1"; lit "register"] [] (lit "/_synapse/admin").

(** A homeserver that hands out the nonce [abcd] and accepts the
    registration. *)
Definition demo_register_http : list Response :=
  [ {| status := 200; body := Some (JObj [(lit "nonce", JStr (lit "abcd"))]) |};
    {| status := 200; body := Some (JObj []) |} ].

Definition demo_register_post : Request :=
  {| method := lit "POST";
     url := register_path;
     data := Some (registration_body (lit "abcd") (lit "pepper")
                     (lit "Pepper") (lit "pass")
                     (lit "6a5504d932fa742fdd134a6657f6061d1f5c8b39"));
     headers := [] |}.

(** ** Room hierarchy *)

(** The request of one turn of [room_hierarchy], started from [current]:
    the [from] parameter is there for a cursor that counts as true. *)
Definition hierarchy_request (self : ExtendedClient) (room_id : pystr)
    (max_depth : Z) (suggested_only : bool) (current : json) : Request :=
  {| method := lit "GET";
     url := _build_path [lit "rooms"; room_id; lit "hierarchy"]
              ([(lit "max_depth", JStr (str_of_int max_depth));
                (lit "suggested_only", JStr (lower_str_of_bool suggested_only))]
               ++ (if truthy current then [(lit "from", current)] else []))
              (lit "/_matrix/client/v1");
     data := None;
     headers := [(lit "Authorization", lit "Bearer " ++ access_token self)] |}.

(** The [rooms] list of a page of the hierarchy, and its [next_batch]
    ([JNull] stands for Python's [None], which [.get] gives for a page
    without the key). *)
Definition page_rooms (r : Response) : option (list json) :=
  match body r with
  | Some (JObj d) =>
      match dict_lookup (lit "rooms") d with
      | Some (JArr l) => Some l
      | _ => None
      end
  | _ => None
  end.

Definition page_next_batch (r : Response) : json :=
  match body r with
  | Some (JObj d) =>
      match dict_lookup (lit "next_batch") d with
      | Some v => v
      | None => JNull
      end
  | _ => JNull
  end.

(** A page "lacks a next_batch value": the key is not in the object. *)
Definition lacks_next_batch (r : Response) : bool :=
  match body r with
  | Some (JObj d) =>
      match dict_lookup (lit "next_batch") d with
      | Some _ => false
      | None => true
      end
  | _ => true
  end.

(** A page ends the pagination: its [next_batch] is missing, or it is a
    value that Python counts as false ([None], the empty string, ...). *)
Definition ends_pagination (r : Response) : bool :=
  negb (truthy (page_next_batch r)).

(** The rooms of the pages, in order. *)
Definition rooms_of (pages : list Response) : list json :=
  concat (map (fun r => default [] (page_rooms r)) pages).

(** The index of the first page that satisfies [stop]. *)
Fixpoint first_index (stop : Response -> bool) (pages : list Response)
  : option nat :=
  match pages with
  | [] => None
  | r :: rest => if stop r then Some O else S <$> first_index stop rest
  end.

Definition demo_client : ExtendedClient :=
  {| user := lit "@loki:example.org"; device_id := lit "Loki";
     access_token := lit "syt_token"; store_path := lit "store";
     next_batch := JStr (lit "s72594_4483_1934");
     rooms := [] |}.

Definition room_a : json := JObj [(lit "room_id", JStr (lit "!a:example.org"))].
Definition room_b : json := JObj [(lit "room_id", JStr (lit "!b:example.org"))].

(** Two pages: the first carries an empty [next_batch], the second none. *)
Definition demo_pages_empty_cursor : list Response :=
  [ {| status := 200;
       body := Some (JObj [(lit "rooms", JArr [room_a]);
                           (lit "next_batch", JStr [])]) |};
    {| status := 200;
       body := Some (JObj [(lit "rooms", JArr [room_b])]) |} ].

(** Two pages chained by the cursor [t1]. *)
Definition demo_pages : list Response :=
  [ {| status := 200;
       body := Some (JObj [(lit "rooms", JArr [room_a]);
                           (lit "next_batch", JStr (lit "t1"))]) |};
    {| status := 200;
       body := Some (JObj [(lit "rooms", JArr [room_b])]) |} ].

(** A homeserver that answers the hierarchy request with an error status
    and a body that has a [rooms] list all the same. *)
Definition demo_error_page : list Response :=
  [ {| status := 500; body := Some (JObj [(lit "rooms", JArr [room_a])]) |} ].

(** ** The state file *)

(** The store directory and the state file in it, as [sync_forever] names
    them. *)
Definition store_dir (self : ExtendedClient) : pystr :=
  fspath (path_of (store_path self)).

Definition state_path (self : ExtendedClient) : pystr :=
  fspath (joinpath (path_of (store_path self)) (lit "state.json")).

(** The cursor after the events of a sync that started from [start]. *)
Definition last_cursor (events : list sync_event) (start : json) : json :=
  fold_left (fun c ev => match ev with Synced v => v | TimerFired => c end)
    events start.

(** The state file can be loaded: it holds a JSON object with a
    [next_batch]. *)
Definition loadable (self : ExtendedClient) (p : Process) (v : json) : Prop :=
  exists data, files p !! state_path self = Some (JsonText data)
               /\ getitem data (lit "next_batch") = Return v.

(** The cursor the sync starts from: the stored one when the state file is
    there, the one of the client when it is missing. *)
Definition cursor_at_start (self : ExtendedClient) (p : Process) : json :=
  match files p !! state_path self with
  | Some (JsonText data) =>
      match getitem data (lit "next_batch") with
      | Return v => v
      | Raise _ => next_batch self
      end
  | _ => next_batch self
  end.

Definition demo_events : list sync_event :=
  [Synced (JStr (lit "s1")); TimerFired; Synced (JStr (lit "s2"))].

(** ** Private rooms *)

(** The members of a room that have joined, and those that have been
    invited and have not answered yet. *)
Definition joined_count (room : MatrixRoom) : nat :=
  size (filter (fun member : pystr * bool => member.2 = false)
          (members room)).
Definition invited_count (room : MatrixRoom) : nat :=
  size (invited_users room).

(** A room to talk to [user_id] in private: tagged direct or a group, with
    exactly two members, joined and invited together, one of whom is
    [user_id]. *)
Definition pm_room_for (user_id : pystr) (room : MatrixRoom) : Prop :=
  (lit "m.direct" ∈ tags room \/ is_group room = true)
  /\ (joined_count room + invited_count room = 2)%nat
  /\ is_Some (members room !! user_id).

(** The rooms that pass the test of [pm_slide]. The sum of the lengths of
    the two dicts counts an invited member twice, so that it is 2 for two
    joined members and nobody invited, and for one invited member alone. *)
Definition reused_room (user_id : pystr) (room : MatrixRoom) : Prop :=
  (lit "m.direct" ∈ tags room \/ is_group room = true)
  /\ ((joined_count room = 2 /\ invited_count room = 0)
      \/ (joined_count room = 0 /\ invited_count room = 1))%nat
  /\ is_Some (members room !! user_id).

(** A room where an invitation is pending: one member at least has been
    invited and has not answered. *)
Definition pending_invite (room : MatrixRoom) : Prop :=
  (1 <= invited_count room)%nat.

(** What [pm_slide] makes of the answer to its [room_create]. *)
Definition created_room (o : outcome nio_response) : outcome pystr :=
  match o with
  | Return (RoomCreateResponse created) => Return created
  | Return _ =>
      Raise (PlainException (lit "Failed to slide into an user's PMs."))
  | Raise e => Raise e
  end.

Definition demo_space : MatrixRoom :=
  {| room_id := lit "!space:example.org"; tags := []; is_group := false;
     members := {[ lit "@loki:example.org" := false;
                   lit "@ada:example.org" := false;
                   lit "@bob:example.org" := false ]} |}.

(** The room that [pm_slide] has created for Ada, who has not accepted the
    invitation yet. *)
Definition demo_dm_ada : MatrixRoom :=
  {| room_id := lit "!ada:example.org"; tags := []; is_group := true;
     members := {[ lit "@loki:example.org" := false;
                   lit "@ada:example.org" := true ]} |}.

(** A room that Ada has joined. *)
Definition demo_dm_ada_again : MatrixRoom :=
  {| room_id := lit "!ada2:example.org"; tags := []; is_group := true;
     members := {[ lit "@loki:example.org" := false;
                   lit "@ada:example.org" := false ]} |}.

(** A client that has invited Ada and waits for her. *)
Definition demo_client_invited : ExtendedClient :=
  {| user := lit "@loki:example.org"; device_id := lit "Loki";
     access_token := lit "syt_token"; store_path := lit "store";
     next_batch := JNull;
     rooms := [(lit "!space:example.org", demo_space);
               (lit "!ada:example.org", demo_dm_ada)] |}.

Definition demo_client_rooms : ExtendedClient :=
  {| user := lit "@loki:example.org"; device_id := lit "Loki";
     access_token := lit "syt_token"; store_path := lit "store";
     next_batch := JNull;
     rooms := [(lit "!space:example.org", demo_space);
               (lit "!ada:example.org", demo_dm_ada);
               (lit "!ada2:example.org", demo_dm_ada_again)] |}.

(** ** The web flow *)

(** An email matches [(.+)@studenti[.]unimore[.]it] at its start: some
    characters, at least one and none of them a newline, then the domain;
    anything may follow. *)
Definition matches_studenti (email : pystr) : Prop :=
  exists pre post,
    email = pre ++ lit "@studenti.unimore.it" ++ post
    /\ pre <> [] /\ 10 ∉ pre.

(** The runs of [page_oauth_authorize] that fail: the query parameters are
    missing, the OAuth exchange fails, the email is not verified, or it does
    not match the pattern. *)
Definition authorize_fails (oauth : oauth_result) : Prop :=
  match oauth with
  | BadRequestKeyError | OAuthError => True
  | Authorized g =>
      g_email_verified g = false \/ ~ matches_studenti (g_email g)
  end.

Definition failure_status (oauth : oauth_result) : N :=
  match oauth with
  | Authorized _ => 403
  | _ => 200
  end.

Definition failure_details (oauth : oauth_result) : error_details :=
  match oauth with
  | BadRequestKeyError => MissingQueryParameters
  | OAuthError => OAuthWentWrong
  | Authorized g =>
      if g_email_verified g then NotInOrganization else EmailNotVerified
  end.

(** The account that Google reports. *)
Definition reported_account (g : GoogleAccount) : Account :=
  {| email := g_email g; first_name := given_name g;
     last_name := family_name g |}.

(** The uniqueness that the two primary keys ask for. *)
Definition consistent (db : Database) : Prop :=
  NoDup (map id (matrix_users db)) /\ NoDup (map email (accounts db)).

(** The databases that the operations build from the empty tables. *)
Definition reachable (db : Database) : Prop :=
  exists ops, db = fold_left (fun db op => perform op db) ops create_all.

Definition demo_ada : GoogleAccount :=
  {| g_email_verified := true;
     g_email := lit "123456@studenti.unimore.it";
     given_name := Some (lit "Ada"); family_name := Some (lit "Lovelace") |}.

Definition demo_user_phone : MatrixUser :=
  {| id := lit "@ada:example.org"; token := lit "tok-phone";
     account_email := None |}.

Definition demo_user_laptop : MatrixUser :=
  {| id := lit "@ada:matrix.org"; token := lit "tok-laptop";
     account_email := None |}.

Definition demo_db : Database :=
  {| accounts := []; matrix_users := [demo_user_phone; demo_user_laptop] |}.

(** Two users are created, and both go through the web flow with the same
    Google account. *)
Definition demo_ops : list operation :=
  [InsertMatrixUser demo_user_phone;
   InsertMatrixUser demo_user_laptop;
   GetAuthorize (Authorized demo_ada)
     {| matrix_token := Some (lit "tok-phone") |};
   GetAuthorize (Authorized demo_ada)
     {| matrix_token := Some (lit "tok-laptop") |}].

(* ===================================================================== *)
(** * [hashlib.sha512] and [hmac] over any hash *)
(* ===================================================================== *)

Module Sha512.

Definition mask64 : N := 0xFFFFFFFFFFFFFFFF.
Definition add64 (x y : N) : N := (x + y) mod 2 ^ 64.
Definition rotr64 (n x : N) : N :=
  N.lor (N.shiftr x n) (N.land (N.shiftl x (64 - n)) mask64).
Definition not64 (x : N) : N := N.lxor x mask64.

(** FIPS 180-4, 5.1.2: one bit, zeros up to 896 mod 1024, the length in
    bits on 128 bits. *)
Definition pad (msg : bytes) : bytes :=
  let l := N.of_nat (length msg) in
  let k := Z.to_nat ((111 - Z.of_N l) mod 128)%Z in
  msg ++ [0x80] ++ repeat 0 k ++ be_bytes 16 (8 * l).

Definition K : list N :=
  [
   0x428a2f98d728ae22; 0x7137449123ef65cd; 0xb5c0fbcfec4d3b2f; 0xe9b5dba58189dbbc;
   0x3956c25bf348b538; 0x59f111f1b605d019; 0x923f82a4af194f9b; 0xab1c5ed5da6d8118;
   0xd807aa98a3030242; 0x12835b0145706fbe; 0x243185be4ee4b28c; 0x550c7dc3d5ffb4e2;
   0x72be5d74f27b896f; 0x80deb1fe3b1696b1; 0x9bdc06a725c71235; 0xc19bf174cf692694;
   0xe49b69c19ef14ad2; 0xefbe4786384f25e3; 0x0fc19dc68b8cd5b5; 0x240ca1cc77ac9c65;
   0x2de92c6f592b0275; 0x4a7484aa6ea6e483; 0x5cb0a9dcbd41fbd4; 0x76f988da831153b5;
   0x983e5152ee66dfab; 0xa831c66d2db43210; 0xb00327c898fb213f; 0xbf597fc7beef0ee4;
   0xc6e00bf33da88fc2; 0xd5a79147930aa725; 0x06ca6351e003826f; 0x142929670a0e6e70;
   0x27b70a8546d22ffc; 0x2e1b21385c26c926; 0x4d2c6dfc5ac42aed; 0x53380d139d95b3df;
   0x650a73548baf63de; 0x766a0abb3c77b2a8; 0x81c2c92e47edaee6; 0x92722c851482353b;
   0xa2bfe8a14cf10364; 0xa81a664bbc423001; 0xc24b8b70d0f89791; 0xc76c51a30654be30;
   0xd192e819d6ef5218; 0xd69906245565a910; 0xf40e35855771202a; 0x106aa07032bbd1b8;
   0x19a4c116b8d2d0c8; 0x1e376c085141ab53; 0x2748774cdf8eeb99; 0x34b0bcb5e19b48a8;
   0x391c0cb3c5c95a63; 0x4ed8aa4ae3418acb; 0x5b9cca4f7763e373; 0x682e6ff3d6b2b8a3;
   0x748f82ee5defb2fc; 0x78a5636f43172f60; 0x84c87814a1f0ab72; 0x8cc702081a6439ec;
   0x90befffa23631e28; 0xa4506cebde82bde9; 0xbef9a3f7b2c67915; 0xc67178f2e372532b;
   0xca273eceea26619c; 0xd186b8c721c0c207; 0xeada7dd6cde0eb1e; 0xf57d4f7fee6ed178;
   0x06f067aa72176fba; 0x0a637dc5a2c898a6; 0x113f9804bef90dae; 0x1b710b35131c471b;
   0x28db77f523047d84; 0x32caab7b40c72493; 0x3c9ebe0a15c9bebc; 0x431d67c49c100d4c;
   0x4cc5d4becb3e42b6; 0x597f299cfc657e2a; 0x5fcb6fab3ad6faec; 0x6c44198c4a475817 ].

Definition initial : list N :=
  [0x6a09e667f3bcc908; 0xbb67ae8584caa73b; 0x3c6ef372fe94f82b;
   0xa54ff53a5f1d36f1; 0x510e527fade682d1; 0x9b05688c2b3e6c1f;
   0x1f83d9abfb41bd6b; 0x5be0cd19137e2179].

Definition small_sigma0 (x : N) : N :=
  N.lxor (N.lxor (rotr64 1 x) (rotr64 8 x)) (N.shiftr x 7).
Definition small_sigma1 (x : N) : N :=
  N.lxor (N.lxor (rotr64 19 x) (rotr64 61 x)) (N.shiftr x 6).
Definition big_sigma0 (x : N) : N :=
  N.lxor (N.lxor (rotr64 28 x) (rotr64 34 x)) (rotr64 39 x).
Definition big_sigma1 (x : N) : N :=
  N.lxor (N.lxor (rotr64 14 x) (rotr64 18 x)) (rotr64 41 x).
Definition ch (x y z : N) : N :=
  N.lxor (N.land x y) (N.land (not64 x) z).
Definition maj (x y z : N) : N :=
  N.lxor (N.lxor (N.land x y) (N.land x z)) (N.land y z).

Definition words (block : bytes) : list N :=
  map be_word (chunks 16 8 block).

Definition schedule (block : bytes) : list N :=
  fold_left
    (fun W t =>
       W ++ [add64 (add64 (small_sigma1 (nth (t - 2) W 0)) (nth (t - 7) W 0))
                   (add64 (small_sigma0 (nth (t - 15) W 0))
                          (nth (t - 16) W 0))])
    (seq 16 64) (words block).

Definition round (s : list N) (kw : N * N) : list N :=
  match s with
  | [a; b; c; d; e; f; g; h] =>
      let '(k, w) := kw in
      let t1 := add64 (add64 (add64 (add64 h (big_sigma1 e)) (ch e f g)) k) w in
      let t2 := add64 (big_sigma0 a) (maj a b c) in
      [add64 t1 t2; a; b; c; add64 d t1; e; f; g]
  | _ => s
  end.

Definition compress (h : list N) (block : bytes) : list N :=
  zip_with add64 h (fold_left round (combine K (schedule block)) h).

(** [hashlib.sha512(msg).digest()]. *)
Definition sha512 (msg : bytes) : bytes :=
  let padded := pad msg in
  flat_map (be_bytes 8)
    (fold_left compress (chunks (length padded) 128 padded) initial).
Arguments sha512 : simpl never.

End Sha512.

Module Hmac.
Section Over.
(** The hash: its digest and its block size in octets. *)
Variables (digest : bytes -> bytes) (block_size : nat).

(** The [hmac.HMAC] object: what its inner and its outer hash were fed. *)
Record HMAC := { inner : bytes; outer : bytes }.

Definition padded_key (key : bytes) : bytes :=
  ljust block_size
    (if (block_size <? length key)%nat then digest key else key).

Definition update (m : HMAC) (msg : bytes) : HMAC :=
  {| inner := inner m ++ msg; outer := outer m |}.

(** [hmac.new(key, msg, digestmod)]: a [msg] that is given is the first
    update. *)
Definition new (key : bytes) (msg : option bytes) : HMAC :=
  let m := {| outer := map (N.lxor 0x5C) (padded_key key);
              inner := map (N.lxor 0x36) (padded_key key) |} in
  match msg with
  | Some msg => update m msg
  | None => m
  end.

Definition hexdigest (m : HMAC) : pystr :=
  hex (digest (outer m ++ digest (inner m))).

(** RFC 2104: [H((K' xor opad) || H((K' xor ipad) || text))]. *)
Definition reference (key text : bytes) : bytes :=
  digest (map (N.lxor 0x5C) (padded_key key)
          ++ digest (map (N.lxor 0x36) (padded_key key) ++ text)).
End Over.
End Hmac.

(** ** The login, with its hash in place *)

(** [hmac.new(key=key, msg=msg, digestmod=hashlib.sha512).hexdigest()]. *)
Definition hmac_sha512_hexdigest (key msg : bytes) : pystr :=
  Hmac.hexdigest Sha512.sha512 (Hmac.new Sha512.sha512 128 key (Some msg)).

Definition login (self : ExtendedClient) (shared_secret : pystr) : io unit :=
  login_with_shared_secret hmac_sha512_hexdigest self shared_secret.

(** The [auth_dict] of the login of [user] from [device_id] with [token]. *)
Definition login_body (user device_id token : pystr) : json :=
  JObj [(lit "type", JStr (lit "com.devture.shared_secret_auth"));
        (lit "identifier",
          JObj [(lit "type", JStr (lit "m.id.user"));
                (lit "user", JStr user)]);
        (lit "token", JStr token);
        (lit "initial_device_display_name", JStr device_id)].

(** What [login_with_shared_secret] makes of the answer to its
    [login_raw]. *)
Definition logged_in (o : outcome nio_response) : outcome unit :=
  match o with
  | Return (LoginError _) => Raise TypeError
  | Return _ => Return tt
  | Raise e => Raise e
  end.

(** ** Registration, as a whole *)

(** The [GET] that opens the registration. *)
Definition register_get : Request :=
  {| method := lit "GET"; url := register_path; data := None;
     headers := [] |}.

(** The homeserver lets the registration through: it answers the [GET]
    below status 400 with a nonce that is a string, the four strings can be
    encoded, and it answers the [POST] below status 400. *)
Definition registration_accepted (shared_secret username password : pystr)
    (http : list Response) : Prop :=
  exists reply registration rest doc nonce,
    http = reply :: registration :: rest
    /\ status reply < 400
    /\ body reply = Some doc
    /\ getitem doc (lit "nonce") = Return (JStr nonce)
    /\ is_Some (encode_utf8 shared_secret)
    /\ is_Some (encode_utf8 nonce)
    /\ is_Some (encode_utf8 username)
    /\ is_Some (encode_utf8 password)
    /\ status registration < 400.

(** The answer to the [GET] gives no nonce to go on with: it is an error,
    it is not JSON, or its document has no [nonce]. *)
Definition no_nonce (reply : Response) : Prop :=
  400 <= status reply
  \/ body reply = None
  \/ exists doc e, body reply = Some doc
                   /\ getitem doc (lit "nonce") = Raise e.

(** ** Room hierarchy, off the good path *)

(** A page that keeps the loop going: it has its [rooms] list and a
    [next_batch] that counts as true. *)
Definition continuing (r : Response) : Prop :=
  is_Some (page_rooms r) /\ truthy (page_next_batch r) = true.

(** What a page makes [room_hierarchy] raise: its body is not JSON, the
    document is not an object, it has no [rooms], or its [rooms] cannot be
    unpacked. *)
Definition page_failure (r : Response) : option exn :=
  match body r with
  | None => Some ContentTypeError
  | Some (JObj d) =>
      match dict_lookup (lit "rooms") d with
      | None => Some (KeyError (lit "rooms"))
      | Some (JNull | JBool _ | JNum _) => Some TypeError
      | Some _ => None
      end
  | Some _ => Some TypeError
  end.

(** The requests of a run that went from cursor to cursor. *)
Definition hierarchy_requests (self : ExtendedClient) (room_id : pystr)
    (max_depth : Z) (suggested_only : bool) (cursors : list json)
  : list call :=
  map (fun c => Send (hierarchy_request self room_id max_depth
                        suggested_only c)) cursors.

Definition demo_pages_endless : list Response :=
  [ {| status := 200;
       body := Some (JObj [(lit "rooms", JArr [room_a]);
                           (lit "next_batch", JStr (lit "t1"))]) |};
    {| status := 200;
       body := Some (JObj [(lit "rooms", JArr [room_b]);
                           (lit "next_batch", JStr (lit "t1"))]) |} ].

Definition demo_pages_broken : list Response :=
  [ {| status := 200;
       body := Some (JObj [(lit "rooms", JArr [room_a]);
                           (lit "next_batch", JStr (lit "t1"))]) |};
    {| status := 403;
       body := Some (JObj [(lit "errcode", JStr (lit "M_FORBIDDEN"))]) |};
    {| status := 200;
       body := Some (JObj [(lit "rooms", JArr [room_b])]) |} ].

(** ** The state file over a whole run *)

(** The document that [dump_state] writes for a cursor. *)
Definition state_doc (cursor : json) : json :=
  JObj [(lit "next_batch", cursor)].

(** The cursors at the moments the timer fires, for a sync that started
    from [start]. *)
Fixpoint cursors_at_ticks (events : list sync_event) (start : json)
  : list json :=
  match events with
  | [] => []
  | Synced v :: rest => cursors_at_ticks rest v
  | TimerFired :: rest => start :: cursors_at_ticks rest start
  end.

(** The state file is there and cannot be loaded: it is not JSON, or its
    document gives no [next_batch]. *)
Definition unloadable (self : ExtendedClient) (p : Process) (e : exn)
  : Prop :=
  (e = JSONDecodeError
   /\ exists text, files p !! state_path self = Some (OtherText text))
  \/ exists data, files p !! state_path self = Some (JsonText data)
                  /\ getitem data (lit "next_batch") = Raise e.

(** The effects of [sync_forever] before the sync starts. *)
Definition startup_effects (self : ExtendedClient) (p : Process)
  : list effect :=
  Mkdir (store_dir self)
  :: match files p !! state_path self with
     | Some _ => [Loaded (state_path self)]
     | None => []
     end
  ++ [TaskCreated 300000].

Definition demo_process_corrupt : Process :=
  process {[ lit "store/state.json" := OtherText (lit "{") ]}.

Definition demo_process_stored : Process :=
  process {[ lit "store/state.json" := JsonText (state_doc (JStr (lit "s0")));
             lit "store/other.db" := OtherText (lit "sqlite") ]}.

(** ** The web flow and the tables, further *)

(** Every link of a Matrix user points to an account that is there. *)
Definition references_exist (db : Database) : Prop :=
  forall u e, u ∈ matrix_users db -> account_email u = Some e ->
              e ∈ map email (accounts db).


Definition demo_session : FlaskSession :=
  {| matrix_token := Some (lit "tok-phone") |}.

(** ** [__repr__] of the two mapped classes *)

Module Repr.

(** What an attribute of a row holds: a string, [None], or the rows of a
    relationship (by primary key). *)
Inductive value : Type :=
| Str (s : pystr)
| NoneValue
| Related (keys : list pystr).

Definition nullable (o : option pystr) : value :=
  match o with
  | Some s => Str s
  | None => NoneValue
  end.

(** [self.name] on an [Account]: the class body gives it [__tablename__],
    the three columns and the relationship; any other name of the
    [__repr__] is an [AttributeError] ([__qualname__] is an attribute of the
    class object, not of its instances). *)
Definition account_getattr (db : Database) (self : Account) (name : pystr)
  : outcome value :=
  if bool_decide (name = lit "__tablename__") then Return (Str (lit "accounts"))
  else if bool_decide (name = lit "email") then Return (Str (email self))
  else if bool_decide (name = lit "first_name")
  then Return (nullable (first_name self))
  else if bool_decide (name = lit "last_name")
  then Return (nullable (last_name self))
  else if bool_decide (name = lit "matrix_users")
  then Return (Related (map id (matrix_users_of db self)))
  else Raise AttributeError.

(** [self.name] on a [MatrixUser]. *)
Definition matrix_user_getattr (db : Database) (self : MatrixUser)
    (name : pystr) : outcome value :=
  if bool_decide (name = lit "__tablename__")
  then Return (Str (lit "matrix_users"))
  else if bool_decide (name = lit "id") then Return (Str (id self))
  else if bool_decide (name = lit "token") then Return (Str (token self))
  else if bool_decide (name = lit "account_email")
  then Return (nullable (account_email self))
  else if bool_decide (name = lit "account")
  then Return (Related (map email (account_of db self)))
  else Raise AttributeError.

Definition and_then {A B} (o : outcome A) (k : A -> outcome B) : outcome B :=
  match o with
  | Return a => k a
  | Raise e => Raise e
  end.

Section Format.
(** The two conversions of an f-string: [{x}] and [{x!r}]. *)
Variables (str repr : value -> pystr).

(** [Account.__repr__]: the fields of the f-string are evaluated from left
    to right. *)
Definition account_repr (db : Database) (self : Account) : outcome pystr :=
  and_then (account_getattr db self (lit "__qualname__")) (fun qualname =>
  and_then (account_getattr db self (lit "id")) (fun id_ =>
  and_then (account_getattr db self (lit "email")) (fun email_ =>
  and_then (account_getattr db self (lit "first_name")) (fun first_name_ =>
  and_then (account_getattr db self (lit "last_name")) (fun last_name_ =>
  and_then (account_getattr db self (lit "private")) (fun private =>
  Return (str qualname ++ lit "(id=" ++ repr id_
          ++ lit ", email=" ++ repr email_
          ++ lit ", first_name=" ++ repr first_name_
          ++ lit ", last_name=" ++ repr last_name_
          ++ lit ", private=" ++ repr private ++ lit ")"))))))).

(** [MatrixUser.__repr__]. *)
Definition matrix_user_repr (db : Database) (self : MatrixUser)
  : outcome pystr :=
  and_then (matrix_user_getattr db self (lit "__qualname__")) (fun qualname =>
  and_then (matrix_user_getattr db self (lit "id")) (fun id_ =>
  and_then (matrix_user_getattr db self (lit "token")) (fun token_ =>
  and_then (matrix_user_getattr db self (lit "account_id")) (fun account_id =>
  Return (str qualname ++ lit "(id=" ++ repr id_
          ++ lit ", token=" ++ str token_
          ++ lit ", account_id=" ++ str account_id ++ lit ")"))))).
End Format.

End Repr.

(** ** What the MAC of the registration tells apart *)

(** The [mac] of the registration that a run has sent, when it has sent
    one. *)
Definition posted_mac (hs : Homeserver) : option json :=
  match log hs with
  | [_; Send post] =>
      match data post with
      | Some (JObj d) => dict_lookup (lit "mac") d
      | _ => None
      end
  | _ => None
  end.

(* ===================================================================== *)
(** * Properties *)
(* ===================================================================== *)

(** ** The runtime model agrees with published test vectors *)

Example sha1_abc :
  hex (sha1 (lit "abc")) = lit "a9993e364706816aba3e25717850c26c9cd0d89d".
Proof. vm_compute. reflexivity. Qed.

Example hmac_rfc2202_case2 :
  hex (hmac_sha1_reference (lit "Jefe") (lit "what do ya want for nothing?"))
  = lit "effcdf6ae5eb2fa2d27416d5f184df9c259a7c79".
Proof. vm_compute. reflexivity. Qed.

(** ** The [hmac] object streams its message *)

Lemma hmac_new_fed key :
  fed (inner (hmac_new key)) = keyed 0x36 key
  /\ fed (outer (hmac_new key)) = keyed 0x5C key.
Proof. split; reflexivity. Qed.

Lemma hmac_update_fed m msg :
  fed (inner (hmac_update m msg)) = fed (inner m) ++ msg
  /\ fed (outer (hmac_update m msg)) = fed (outer m).
Proof. split; reflexivity. Qed.

Lemma hmac_digest_fed m :
  hmac_digest m = sha1 (fed (outer m) ++ sha1 (fed (inner m))).
Proof. reflexivity. Qed.

(** Feeding the parts one by one is feeding their concatenation. *)
Lemma hmac_updates parts : forall m,
  fed (inner (fold_left hmac_update parts m)) = fed (inner m) ++ concat parts
  /\ fed (outer (fold_left hmac_update parts m)) = fed (outer m).
Proof.
  induction parts as [|part parts IH]; intros m; simpl.
  - by rewrite app_nil_r.
  - destruct (IH (hmac_update m part)) as [-> ->].
    destruct (hmac_update_fed m part) as [-> ->].
    by rewrite <- app_assoc.
Qed.

Lemma hmac_stream key parts :
  hmac_digest (fold_left hmac_update parts (hmac_new key))
  = hmac_sha1_reference key (concat parts).
Proof.
  rewrite hmac_digest_fed.
  destruct (hmac_updates parts (hmac_new key)) as [-> ->].
  destruct (hmac_new_fed key) as [-> ->].
  reflexivity.
Qed.

(** ** Registration with the shared secret *)

Lemma str_encode_Return s b :
  str_encode s = Return b -> encode_utf8 s = Some b.
Proof.
  unfold str_encode. destruct (encode_utf8 s); [|discriminate].
  by intros [= ->].
Qed.

Lemma encode_Return x b :
  encode x = Return b -> exists s, x = JStr s /\ encode_utf8 s = Some b.
Proof.
  destruct x; simpl; try discriminate.
  intros H%str_encode_Return. eauto.
Qed.

(** The run sent its [GET] only: no request of the log is a [POST]. *)
Ltac only_the_get :=
  let H := fresh in let Hm := fresh in
  cbn; intros H%list_elem_of_singleton Hm; injection H as ->;
  vm_compute in Hm; discriminate.

(** C1. Whatever the shared secret, the nonce, the username and the
    password: a registration [POST] of [register_with_shared_secret] carries
    as [mac] the hex digest of the HMAC-SHA1, keyed with the shared secret,
    of nonce, NUL, username, NUL, password, NUL, [notadmin], and as [nonce]
    the nonce that the response to the [GET] before it held. *)
Theorem register_mac_is_reference_hmac
    (shared_secret username displayname password : pystr)
    (http : list Response) (sdk : list (outcome nio_response))
    (post : Request) :
  Send post ∈ log (snd (register_with_shared_secret shared_secret username
                          displayname password (homeserver http sdk))) ->
  method post = lit "POST" ->
  exists reply rest doc nonce key n u p,
    http = reply :: rest
    /\ body reply = Some doc
    /\ getitem doc (lit "nonce") = Return (JStr nonce)
    /\ encode_utf8 shared_secret = Some key
    /\ encode_utf8 nonce = Some n
    /\ encode_utf8 username = Some u
    /\ encode_utf8 password = Some p
    /\ data post = Some (registration_body nonce username displayname password
         (hex (hmac_sha1_reference key (registration_message n u p)))).
Proof.
  unfold register_with_shared_secret, homeserver.
  destruct http as [|reply rest]; [only_the_get|].
  unfold bind at 1. cbn [send http Matrix.sdk log app].
  unfold bind at 1. unfold lift at 1. unfold raise_for_status.
  destruct (400 <=? status reply) eqn:Hst; [only_the_get|].
  unfold bind at 1. unfold lift at 1. unfold response_json.
  destruct (body reply) as [doc|] eqn:Hbody; [|only_the_get].
  unfold bind at 1. unfold lift at 1.
  destruct (getitem doc (lit "nonce")) as [nonce|e] eqn:Hnonce; [|only_the_get].
  unfold bind at 1. unfold lift at 1.
  destruct (str_encode shared_secret) as [key|e] eqn:Hkey; [|only_the_get].
  unfold bind at 1. unfold lift at 1.
  destruct (encode nonce) as [n|e] eqn:Hn; [|only_the_get].
  unfold bind at 1. unfold lift at 1.
  destruct (str_encode username) as [u|e] eqn:Hu; [|only_the_get].
  unfold bind at 1. unfold lift at 1.
  destruct (str_encode password) as [p|e] eqn:Hp; [|only_the_get].
  apply str_encode_Return in Hkey, Hu, Hp.
  apply encode_Return in Hn as (nonce' & -> & Hn).
  assert (Hmac : hmac_hexdigest
      (fold_left hmac_update [n; [0]; u; [0]; p; [0]; lit "notadmin"]
         (hmac_new key))
    = hex (hmac_sha1_reference key (registration_message n u p))).
  { unfold hmac_hexdigest. rewrite hmac_stream. do 2 f_equal. }
  simpl fold_left in Hmac. rewrite Hmac. clear Hmac.
  assert (Hpost : forall (r : Request),
    Send post ∈ [Send {| method := lit "GET";
                         url := _build_path [lit "v1"; lit "register"] []
                                  (lit "/_synapse/admin");
                         data := None; headers := [] |}; Send r] ->
    method post = lit "POST" -> post = r).
  { intros r [H|H%list_elem_of_singleton]%elem_of_cons Hm.
    - injection H as ->. vm_compute in Hm. discriminate.
    - by injection H. }
  unfold bind at 1. unfold send at 1. cbn [http Matrix.sdk log app].
  destruct rest as [|registration rest'].
  - cbn [snd log]. intros H Hm. apply Hpost in H as ->; [|done].
    exists reply, [], doc, nonce', key, n, u, p. repeat split; done.
  - unfold bind, lift, raise_for_status, ret.
    destruct (400 <=? status registration); cbn [snd log];
      intros H Hm; (apply Hpost in H as ->; [|done]);
      exists reply, (registration :: rest'), doc, nonce', key, n, u, p;
      repeat split; done.
Qed.

(** The digest above is the one Python's [hmac] gives for the key [secret]
    and the message [abcd\0pepper\0pass\0notadmin]. *)
Example register_demo_run :
  register_with_shared_secret (lit "secret") (lit "pepper") (lit "Pepper")
    (lit "pass") (homeserver demo_register_http [])
  = (Some (Return tt),
     {| http := []; sdk := [];
        log := [Send {| method := lit "GET";
                        url := _build_path [lit "v1"; lit "register"] []
                                 (lit "/_synapse/admin");
                        data := None; headers := [] |};
                Send demo_register_post] |}).
Proof. vm_compute. reflexivity. Qed.

(** The theorem at that run. *)
Lemma register_mac_is_reference_hmac_witness :
  exists reply rest doc nonce key n u p,
    demo_register_http = reply :: rest
    /\ body reply = Some doc
    /\ getitem doc (lit "nonce") = Return (JStr nonce)
    /\ encode_utf8 (lit "secret") = Some key
    /\ encode_utf8 nonce = Some n
    /\ encode_utf8 (lit "pepper") = Some u
    /\ encode_utf8 (lit "pass") = Some p
    /\ data demo_register_post
       = Some (registration_body nonce (lit "pepper") (lit "Pepper")
                 (lit "pass")
                 (hex (hmac_sha1_reference key (registration_message n u p)))).
Proof.
  apply (register_mac_is_reference_hmac (lit "secret") (lit "pepper")
           (lit "Pepper") (lit "pass") demo_register_http []
           demo_register_post).
  - vm_compute. right. left.
  - reflexivity.
Defined.

(** ** The room hierarchy *)

Section Hierarchy.
Variables (self : ExtendedClient) (room_id : pystr) (max_depth : Z)
  (suggested_only : bool).

(** One turn of the loop on a page that has its [rooms] list. *)
Lemma hierarchy_page_run r rs rest sdk log0 current rooms :
  page_rooms r = Some rs ->
  hierarchy_page self room_id max_depth suggested_only current rooms
    {| http := r :: rest; sdk := sdk; log := log0 |}
  = (Some (Return (if truthy (page_next_batch r)
                   then inl (page_next_batch r, rooms ++ rs)
                   else inr (rooms ++ rs))),
     {| http := rest; sdk := sdk;
        log := log0 ++ [Send (hierarchy_request self room_id max_depth
                                suggested_only current)] |}).
Proof.
  unfold page_rooms, page_next_batch, hierarchy_page, hierarchy_request.
  destruct (body r) as [[| | | | |d]|] eqn:Hbody; try discriminate.
  destruct (dict_lookup (lit "rooms") d) as [[| | | |l|]|] eqn:Hrooms;
    try discriminate.
  intros [= ->].
  assert (Hq : forall q : list (pystr * json),
    q = [(lit "max_depth", JStr (str_of_int max_depth));
         (lit "suggested_only", JStr (lower_str_of_bool suggested_only))] ->
    (if truthy current then dict_set (lit "from") current q else q)
    = q ++ (if truthy current then [(lit "from", current)] else [])).
  { intros q ->. destruct (truthy current); reflexivity. }
  rewrite (Hq _ eq_refl). clear Hq.
  unfold bind, send, lift, response_json, getitem, get, unpack, ret.
  cbn [http Matrix.sdk log]. rewrite Hbody, Hrooms.
  destruct (dict_lookup (lit "next_batch") d) as [v|]; cbn [truthy negb];
    [destruct (truthy v)|]; reflexivity.
Qed.

(** A turn of the loop takes the next response of the script, whatever it
    makes of it. *)
Lemma hierarchy_page_consumes r rest sdk log0 current rooms :
  exists o,
    hierarchy_page self room_id max_depth suggested_only current rooms
      {| http := r :: rest; sdk := sdk; log := log0 |}
    = (Some o,
       {| http := rest; sdk := sdk;
          log := log0 ++ [Send (hierarchy_request self room_id max_depth
                                  suggested_only current)] |}).
Proof.
  unfold hierarchy_page, hierarchy_request.
  assert (Hq : forall q : list (pystr * json),
    q = [(lit "max_depth", JStr (str_of_int max_depth));
         (lit "suggested_only", JStr (lower_str_of_bool suggested_only))] ->
    (if truthy current then dict_set (lit "from") current q else q)
    = q ++ (if truthy current then [(lit "from", current)] else [])).
  { intros q ->. destruct (truthy current); reflexivity. }
  rewrite (Hq _ eq_refl). clear Hq.
  unfold bind, send, lift, response_json, ret. cbn [http Matrix.sdk log].
  destruct (body r) as [doc|]; [|by eauto].
  destruct (getitem doc (lit "rooms")) as [page|]; [|by eauto].
  destruct (unpack page); [|by eauto].
  destruct (get doc (lit "next_batch")) as [v|]; [|by eauto].
  destruct (negb (truthy v)); by eauto.
Qed.

(** The fuel that [room_hierarchy] gives to the loop is never used up: any
    fuel above the number of scripted responses gives the same run. *)
Lemma hierarchy_loop_fuel (pages : list Response) :
  forall fuel fuel' sdk log0 current rooms,
    (length pages < fuel)%nat -> (length pages < fuel')%nat ->
    hierarchy_loop fuel self room_id max_depth suggested_only current rooms
      {| http := pages; sdk := sdk; log := log0 |}
    = hierarchy_loop fuel' self room_id max_depth suggested_only current rooms
        {| http := pages; sdk := sdk; log := log0 |}.
Proof.
  induction pages as [|r rest IH]; intros fuel fuel' sdk log0 current rooms
    Hfuel Hfuel'; (destruct fuel as [|fuel]; [simpl in Hfuel; lia|]);
    (destruct fuel' as [|fuel']; [simpl in Hfuel'; lia|]);
    cbn [hierarchy_loop]; unfold bind.
  - reflexivity.
  - destruct (hierarchy_page_consumes r rest sdk log0 current rooms)
      as [o ->].
    destruct o as [[[c rs]|rs]|e]; [|done|done].
    apply IH; simpl in *; lia.
Qed.

Lemma first_index_lt stop (pages : list Response) n :
  first_index stop pages = Some n -> (n < length pages)%nat.
Proof.
  revert n. induction pages as [|r rest IH]; intros n; simpl; [done|].
  destruct (stop r); [intros [= <-]; lia|].
  destruct (first_index stop rest) as [m|]; simpl; [|done].
  intros [= <-]. specialize (IH m eq_refl). lia.
Qed.

(** The loop, from any cursor and any rooms gathered so far. *)
Lemma hierarchy_loop_run (pages : list Response) :
  forall n fuel sdk log0 current rooms,
    (n < fuel)%nat ->
    first_index ends_pagination pages = Some n ->
    (forall r, r ∈ take (S n) pages -> is_Some (page_rooms r)) ->
    hierarchy_loop fuel self room_id max_depth suggested_only current rooms
      {| http := pages; sdk := sdk; log := log0 |}
    = (Some (Return (rooms ++ rooms_of (take (S n) pages))),
       {| http := drop (S n) pages; sdk := sdk;
          log := log0
            ++ map (fun c => Send (hierarchy_request self room_id max_depth
                                     suggested_only c))
                 (current :: map page_next_batch (take n pages)) |}).
Proof.
  induction pages as [|r rest IH]; intros n fuel sdk log0 current rooms
    Hfuel Hfirst Hpages; [done|].
  destruct fuel as [|fuel]; [lia|].
  destruct (Hpages r) as [rs Hrs]; [simpl; left|].
  simpl in Hfirst. unfold ends_pagination at 1 in Hfirst.
  cbn [hierarchy_loop]. unfold bind at 1.
  rewrite (hierarchy_page_run _ _ _ _ _ _ _ Hrs).
  destruct (truthy (page_next_batch r)) eqn:Hnb; simpl in Hfirst.
  - destruct (first_index ends_pagination rest) as [m|] eqn:Hm; [|done].
    injection Hfirst as <-.
    rewrite (IH m fuel); [|lia|done|].
    + unfold rooms_of. cbn [take drop map concat]. rewrite Hrs. simpl.
      by rewrite <- !app_assoc.
    + intros r' Hr'. apply Hpages. simpl. by right.
  - injection Hfirst as <-. unfold ret, rooms_of. simpl. rewrite Hrs. simpl.
    by rewrite app_nil_r, drop_0.
Qed.

(** C8, amended. For every sequence of hierarchy pages: when some page lacks
    a [next_batch] or carries one that counts as false, [room_hierarchy]
    returns, with the rooms of all pages up to and including the first such
    page, in order; the first request has no [from], every later one has the
    [next_batch] of the page before it, and no page after that one is
    asked for. *)
Theorem room_hierarchy_stops_at_first_false_cursor
    (pages : list Response) (sdk : list (outcome nio_response)) (n : nat) :
  first_index ends_pagination pages = Some n ->
  (forall r, r ∈ take (S n) pages -> is_Some (page_rooms r)) ->
  room_hierarchy self room_id max_depth suggested_only (homeserver pages sdk)
  = (Some (Return (rooms_of (take (S n) pages))),
     {| http := drop (S n) pages; sdk := sdk;
        log := map (fun c => Send (hierarchy_request self room_id max_depth
                                     suggested_only c))
                 (JNull :: map page_next_batch (take n pages)) |}).
Proof.
  intros Hfirst Hpages. unfold room_hierarchy, homeserver. cbn [http].
  apply first_index_lt in Hfirst as Hlt.
  rewrite (hierarchy_loop_run pages n); [done|lia|done|done].
Qed.

End Hierarchy.

(** A page without the key ends the pagination. *)
Lemma lacks_next_batch_ends r : lacks_next_batch r = true -> ends_pagination r = true.
Proof.
  unfold lacks_next_batch, ends_pagination, page_next_batch.
  destruct (body r) as [[| | | | |d]|]; try done.
  by destruct (dict_lookup (lit "next_batch") d).
Qed.

Lemma room_hierarchy_stops_at_first_false_cursor_witness :
  room_hierarchy demo_client (lit "!space:example.org") 2 false
    (homeserver demo_pages [])
  = (Some (Return (rooms_of (take 2 demo_pages))),
     {| http := drop 2 demo_pages; sdk := [];
        log := map (fun c => Send (hierarchy_request demo_client
                                     (lit "!space:example.org") 2 false c))
                 (JNull :: map page_next_batch (take 1 demo_pages)) |}).
Proof.
  apply (room_hierarchy_stops_at_first_false_cursor demo_client
           (lit "!space:example.org") 2 false demo_pages [] 1).
  - reflexivity.
  - intros r Hr. vm_compute in Hr.
    repeat (apply elem_of_cons in Hr as [->|Hr]; [vm_compute; eauto|]).
    by apply elem_of_nil in Hr.
Defined.

(** C8 as it is stated fails on a first page with an empty [next_batch]:
    the second page is the first one without the key, the claim promises the
    rooms of both pages, and the loop has left after the first. *)
Lemma room_hierarchy_claim_counterexample :
  Forall (fun r => is_Some (page_rooms r)) demo_pages_empty_cursor
  /\ first_index lacks_next_batch demo_pages_empty_cursor = Some 1%nat
  /\ rooms_of (take 2 demo_pages_empty_cursor) = [room_a; room_b]
  /\ fst (room_hierarchy demo_client (lit "!space:example.org") 2 false
            (homeserver demo_pages_empty_cursor []))
     = Some (Return [room_a])
  /\ fst (room_hierarchy demo_client (lit "!space:example.org") 2 false
            (homeserver demo_pages_empty_cursor []))
     <> Some (Return (rooms_of (take 2 demo_pages_empty_cursor))).
Proof.
  split; [|repeat split].
  - repeat constructor; vm_compute; eauto.
  - vm_compute. discriminate.
Qed.

(** ** Errors of the homeserver *)

(** [register_with_shared_secret] raises when the [GET] is refused... *)
Lemma register_raises_on_refused_get secret username displayname password
    reply rest sdk :
  400 <= status reply ->
  fst (register_with_shared_secret secret username displayname password
         (homeserver (reply :: rest) sdk))
  = Some (Raise (ClientResponseError (status reply))).
Proof.
  intros Hst. unfold register_with_shared_secret, bind, send, lift,
    raise_for_status, homeserver. cbn [http].
  apply N.leb_le in Hst. by rewrite Hst.
Qed.

(** ... and when the [POST] is: whatever the run did before, once the
    registration is answered with an error status the call raises. *)
Lemma register_raises_on_refused_post secret username displayname password
    reply registration rest sdk :
  400 <= status registration ->
  exists e,
    fst (register_with_shared_secret secret username displayname password
           (homeserver (reply :: registration :: rest) sdk))
    = Some (Raise e).
Proof.
  intros Hst%N.leb_le.
  unfold register_with_shared_secret, bind, send, lift, raise_for_status,
    response_json, homeserver. cbn [http].
  destruct (400 <=? status reply); [by eauto|].
  destruct (body reply); [|by eauto].
  destruct (getitem _ _); [|by eauto].
  destruct (str_encode secret); [|by eauto].
  destruct (encode _); [|by eauto].
  destruct (str_encode username); [|by eauto].
  destruct (str_encode password); [|by eauto].
  cbn. rewrite Hst. eauto.
Qed.

(** [login_with_shared_secret] raises on a [LoginError]. *)
Lemma login_raises_on_error hmac_sha512 self secret message rest :
  exists e,
    fst (login_with_shared_secret hmac_sha512 self secret
           (homeserver [] (Return (LoginError message) :: rest)))
    = Some (Raise e).
Proof.
  unfold login_with_shared_secret, bind, lift, login_raw, sdk_call, homeserver.
  destruct (str_encode secret); [|by eauto].
  destruct (str_encode (user self)); by eauto.
Qed.

(** [_send] never raises: what it tests is the coroutine object of nio's
    [_send], which is no [ErrorResponse] whatever the homeserver answers, and
    it hands that coroutine on. *)
Lemma _send_hands_on_the_coroutine response :
  _send response = Return (Coroutine response).
Proof. reflexivity. Qed.

(** [room_hierarchy] never looks at the status of a response. *)
Lemma hierarchy_page_status_blind self room_id max_depth suggested_only
    current rooms r r' rest sdk log0 :
  body r = body r' ->
  hierarchy_page self room_id max_depth suggested_only current rooms
    {| http := r :: rest; sdk := sdk; log := log0 |}
  = hierarchy_page self room_id max_depth suggested_only current rooms
      {| http := r' :: rest; sdk := sdk; log := log0 |}.
Proof.
  intros Hbody. unfold hierarchy_page, bind, send, lift, response_json.
  cbn [http]. by rewrite Hbody.
Qed.

(** C2, at the input where the code leaves it: the homeserver answers the
    hierarchy request with status 500, and [room_hierarchy] returns the
    rooms of the body as if the request had succeeded. *)
Theorem room_hierarchy_returns_on_error_status :
  Forall (fun r => 400 <= status r) demo_error_page
  /\ fst (room_hierarchy demo_client (lit "!space:example.org") 2 false
            (homeserver demo_error_page []))
     = Some (Return [room_a]).
Proof.
  split.
  - repeat constructor. vm_compute. discriminate.
  - vm_compute. reflexivity.
Qed.

(** ** The state file *)

(** [pathlib] on store paths: the empty path, the default of [nio], is the
    working directory; slashes at the end or doubled inside do not count,
    nor do [.] parts; two slashes at the start are a root of their own,
    three are one. *)
Example state_path_by_pathlib :
  let state_json store :=
    fspath (joinpath (path_of store) (lit "state.json")) in
  fspath (path_of []) = lit "."
  /\ state_json [] = lit "state.json"
  /\ state_json (lit "store") = lit "store/state.json"
  /\ state_json (lit "store/") = lit "store/state.json"
  /\ state_json (lit "./store//nio") = lit "store/nio/state.json"
  /\ state_json (lit "../store") = lit "../store/state.json"
  /\ state_json (lit "/") = lit "/state.json"
  /\ state_json (lit "//srv/loki") = lit "//srv/loki/state.json"
  /\ state_json (lit "///srv/loki") = lit "/srv/loki/state.json".
Proof. repeat split; vm_compute; reflexivity. Qed.

Lemma state_data_next_batch self :
  state_data self = [(lit "next_batch", next_batch self)].
Proof. reflexivity. Qed.


(** C3, amended. [dump_state] writes a JSON object with one key,
    [next_batch], holding the sync cursor of the client; one period of the
    timer task does that to [state.json] in the store path, and touches no
    other file. *)
Theorem dump_state_writes_one_key (self : ExtendedClient) (path : pystr)
    (p : Process) :
  files (dump_state self path p) !! path
    = Some (JsonText (JObj [(lit "next_batch", next_batch self)]))
  /\ dict_keys (state_data self) = [lit "next_batch"]
  /\ length (dict_keys (state_data self)) = 1%nat
  /\ _dump_state_regularly_period self p = dump_state self (state_path self) p
  /\ files (dump_state self path p) = <[path := JsonText (JObj (state_data self))]> (files p).
Proof.
  repeat split. unfold dump_state. cbn [files].
  by rewrite lookup_insert_eq.
Qed.

(** C3 as it is stated fails: the object written for the sample client has
    one key, not two. *)
Lemma dump_state_two_keys_counterexample :
  files (dump_state demo_client (lit "store/state.json") (process ∅))
    !! lit "store/state.json"
  = Some (JsonText (JObj [(lit "next_batch", JStr (lit "s72594_4483_1934"))]))
  /\ length (dict_keys [(lit "next_batch", JStr (lit "s72594_4483_1934"))])
     <> 2%nat.
Proof.
  split.
  - unfold dump_state. cbn [files]. by rewrite lookup_insert_eq.
  - vm_compute. discriminate.
Qed.


(** ** [sync_forever] *)

(** While the sync runs the store path and the dump task stay as they are,
    the cursor follows the sync responses, and effects are only added. *)
Lemma during_sync_step self p ev :
  exists self' p' more,
    during_sync (self, p) ev = (self', p')
    /\ store_path self' = store_path self
    /\ next_batch self'
       = match ev with Synced v => v | TimerFired => next_batch self end
    /\ dump_task p' = dump_task p
    /\ effects p' = effects p ++ more.
Proof.
  destruct ev as [v|]; simpl.
  - exists (set_next_batch self v), p, []. by rewrite app_nil_r.
  - destruct (dump_task p) as [[|]|] eqn:Htask.
    + exists self, (_dump_state_regularly_period self p),
        [Dumped (state_path self) (JObj (state_data self))].
      by rewrite <- Htask.
    + exists self, p, []. by rewrite app_nil_r, Htask.
    + exists self, p, []. by rewrite app_nil_r, Htask.
Qed.

Lemma during_sync_fold events : forall self p,
  exists self' p' more,
    fold_left during_sync events (self, p) = (self', p')
    /\ store_path self' = store_path self
    /\ next_batch self' = last_cursor events (next_batch self)
    /\ dump_task p' = dump_task p
    /\ effects p' = effects p ++ more.
Proof.
  induction events as [|ev events IH]; intros self p.
  - exists self, p, []. by rewrite app_nil_r.
  - cbn [fold_left].
    destruct (during_sync_step self p ev)
      as (self1 & p1 & more1 & -> & Hs1 & Hn1 & Ht1 & He1).
    destruct (IH self1 p1) as (self' & p' & more & -> & Hs & Hn & Ht & He).
    exists self', p', (more1 ++ more).
    rewrite Hs, Hs1, Hn, Hn1, Ht, Ht1, He, He1, <- app_assoc.
    by destruct ev.
Qed.

(** C10. From a start with the state file missing or loadable, whichever
    way the underlying sync ends - it returns, it is cancelled, it raises -
    [sync_forever] ends the same way, having cancelled the dump task and
    then dumped the state once: [state.json] holds the last cursor of the
    sync. The sync itself started from the cursor of the client when the
    file was missing, and from the stored cursor when it was there. *)
Theorem sync_forever_dumps_on_every_exit (self : ExtendedClient)
    (events : list sync_event) (ending : sync_end) (p : Process) :
  files p !! state_path self = None \/ (exists v, loadable self p v) ->
  exists self' p' before,
    sync_forever self events ending p = (end_outcome ending, self', p')
    /\ next_batch self' = last_cursor events (cursor_at_start self p)
    /\ dump_task p' = Some Cancelled
    /\ effects p'
       = before ++ [TaskCancel (lit "Client stopped syncing.");
                    Dumped (state_path self)
                      (JObj [(lit "next_batch", next_batch self')])]
    /\ files p' !! state_path self
       = Some (JsonText (JObj [(lit "next_batch", next_batch self')]))
    /\ (files p !! state_path self = None ->
        cursor_at_start self p = next_batch self)
    /\ (forall v, loadable self p v -> cursor_at_start self p = v).
Proof.
  intros Hstart.
  assert (Hrun : forall self0 p0,
    store_path self0 = store_path self ->
    next_batch self0 = cursor_at_start self p ->
    exists self' p' before,
      (let p := {| files := files p0; dump_task := Some Running;
                   effects := effects p0 ++ [TaskCreated 300000] |} in
       let '(self1, p) := fold_left during_sync events (self0, p) in
       let p := {| files := files p; dump_task := Some Cancelled;
                   effects := effects p
                     ++ [TaskCancel (lit "Client stopped syncing.")] |} in
       let p := dump_state self1 (state_path self) p in
       (end_outcome ending, self1, p))
      = (end_outcome ending, self', p')
      /\ next_batch self' = last_cursor events (cursor_at_start self p)
      /\ dump_task p' = Some Cancelled
      /\ effects p'
         = before ++ [TaskCancel (lit "Client stopped syncing.");
                      Dumped (state_path self)
                        (JObj [(lit "next_batch", next_batch self')])]
      /\ files p' !! state_path self
         = Some (JsonText (JObj [(lit "next_batch", next_batch self')]))).
  { intros self0 p0 Hpath Hcur. cbn zeta.
    destruct (during_sync_fold events self0
                {| files := files p0; dump_task := Some Running;
                   effects := effects p0 ++ [TaskCreated 300000] |})
      as (self' & p' & more & -> & Hsp & Hnb & _ & He).
    eexists self', _, _. split; [reflexivity|].
    cbn [dump_state dump_task effects files].
    rewrite !state_data_next_batch, lookup_insert_eq, He. cbn [effects].
    repeat split; [by rewrite Hnb, Hcur|].
    rewrite <- (app_assoc _ [TaskCancel _] [Dumped _ _]). reflexivity. }
  unfold sync_forever, load_state. cbn [files]. fold (state_path self).
  destruct Hstart as [Hnone|[v (data & Hfile & Hget)]].
  - assert (Hcur : next_batch self = cursor_at_start self p).
    { unfold cursor_at_start. by rewrite Hnone. }
    rewrite Hnone.
    destruct (Hrun self {| files := files p; dump_task := dump_task p;
                           effects := effects p ++ [Mkdir (store_dir self)] |}
                eq_refl Hcur)
      as (self' & p' & before & Heq & ? & ? & ? & ?).
    exists self', p', before. repeat split; try done.
    intros v (data & Hfile & _). congruence.
  - assert (Hcur : next_batch (set_next_batch self v)
                   = cursor_at_start self p).
    { unfold cursor_at_start. by rewrite Hfile, Hget. }
    rewrite Hfile, Hget.
    destruct (Hrun (set_next_batch self v)
                {| files := files p; dump_task := dump_task p;
                   effects := (effects p ++ [Mkdir (store_dir self)])
                              ++ [Loaded (state_path self)] |}
                eq_refl Hcur)
      as (self' & p' & before & Heq & ? & ? & ? & ?).
    exists self', p', before. repeat split; try done.
    intros v' (data' & Hfile' & Hget'). unfold cursor_at_start.
    by rewrite Hfile', Hget'.
Qed.

Lemma sync_forever_dumps_on_every_exit_witness :
  (exists self' p' before,
    sync_forever demo_client demo_events SyncCancelled (process ∅)
      = (end_outcome SyncCancelled, self', p')
    /\ next_batch self'
       = last_cursor demo_events (cursor_at_start demo_client (process ∅))
    /\ dump_task p' = Some Cancelled
    /\ effects p'
       = before ++ [TaskCancel (lit "Client stopped syncing.");
                    Dumped (state_path demo_client)
                      (JObj [(lit "next_batch", next_batch self')])]
    /\ files p' !! state_path demo_client
       = Some (JsonText (JObj [(lit "next_batch", next_batch self')]))
    /\ (files (process ∅) !! state_path demo_client = None ->
        cursor_at_start demo_client (process ∅) = next_batch demo_client)
    /\ (forall v, loadable demo_client (process ∅) v ->
        cursor_at_start demo_client (process ∅) = v)).
Proof.
  apply (sync_forever_dumps_on_every_exit demo_client demo_events
           SyncCancelled (process ∅)).
  left. reflexivity.
Defined.

(** ** [pm_slide] *)

Lemma member_counts room :
  size (members room) = (joined_count room + invited_count room)%nat.
Proof.
  unfold joined_count, invited_count, invited_users.
  set (invited := fun member : pystr * bool => member.2 = true).
  rewrite <- (map_filter_union_complement invited (members room)) at 1.
  rewrite map_size_disj_union by apply map_disjoint_filter_complement.
  rewrite Nat.add_comm. f_equal. f_equal.
  apply map_filter_ext. intros i [] _; unfold invited; cbn; split; congruence.
Qed.

Lemma invited_is_member room user_id :
  is_Some (invited_users room !! user_id) ->
  is_Some (members room !! user_id).
Proof.
  unfold invited_users. intros [x [H _]%map_lookup_filter_Some]. by exists x.
Qed.

Lemma is_pm_room_spec user_id room :
  is_pm_room user_id room = true <-> reused_room user_id room.
Proof.
  unfold is_pm_room, reused_room, users.
  rewrite !andb_true_iff, !orb_true_iff, !bool_decide_eq_true, Nat.eqb_eq.
  rewrite member_counts. fold (invited_count room).
  pose proof (invited_is_member room user_id).
  intuition lia.
Qed.

Lemma pm_slide_scan_none user_id values :
  Forall (fun r => ~ reused_room user_id r) values ->
  pm_slide_scan user_id values = None.
Proof.
  induction 1 as [|r values Hr _ IH]; simpl; [done|].
  destruct (is_pm_room user_id r) eqn:E; [|done].
  by apply is_pm_room_spec in E.
Qed.

(** C6. Where [pm_slide] leaves the claim. When every room of the client
    has two members or more, and in each room of exactly two members an
    invitation is pending, then [pm_slide] finds no room to reuse: it asks the
    homeserver for a new direct room that invites [user_id], also when the
    client holds a direct room whose two members are the client, who has
    joined, and [user_id], who is invited. *)
Theorem pm_slide_creates_despite_pending_invite (self : ExtendedClient)
    (user_id : pystr) (http : list Response)
    (sdk : list (outcome nio_response)) (answer : outcome nio_response)
    (rest : list (outcome nio_response)) :
  Forall (fun r => (2 <= joined_count r + invited_count r)%nat
                   /\ ((joined_count r + invited_count r = 2)%nat ->
                       pending_invite r))
    (map snd (rooms self)) ->
  sdk = answer :: rest ->
  pm_slide self user_id (homeserver http sdk)
  = (Some (created_room answer),
     {| http := http; sdk := rest;
        log := [RoomCreate [user_id] true] |}).
Proof.
  intros Hrooms ->. unfold pm_slide.
  rewrite pm_slide_scan_none.
  - unfold bind, room_create, sdk_call, homeserver, created_room.
    cbn [Matrix.http Matrix.sdk log app].
    destruct answer as [[]|]; reflexivity.
  - eapply Forall_impl; [exact Hrooms|].
    intros r [Htwo Hpending]. unfold reused_room, pending_invite in *. lia.
Qed.

(** The theorem on the client that has invited Ada: the room made for her is
    a group of two members with Ada among them, the room of the claim, and
    [pm_slide] makes another one. *)
Lemma pm_slide_creates_despite_pending_invite_witness :
  pm_room_for (lit "@ada:example.org") demo_dm_ada
  /\ pm_slide demo_client_invited (lit "@ada:example.org")
       (homeserver [] [Return (RoomCreateResponse (lit "!new:example.org"))])
     = (Some (Return (lit "!new:example.org")),
        {| http := []; sdk := [];
           log := [RoomCreate [lit "@ada:example.org"] true] |}).
Proof.
  split.
  - vm_compute. repeat split; eauto.
  - refine (pm_slide_creates_despite_pending_invite demo_client_invited
              (lit "@ada:example.org") []
              [Return (RoomCreateResponse (lit "!new:example.org"))]
              (Return (RoomCreateResponse (lit "!new:example.org"))) []
              _ eq_refl).
    do 2 (apply Forall_cons_2; [vm_compute; lia|]). apply Forall_nil_2.
Defined.

(** ** The pattern of the university emails *)

Lemma starts_with_spec prefix : forall s,
  starts_with prefix s = true <-> exists post, s = prefix ++ post.
Proof.
  induction prefix as [|p prefix IH]; intros s; simpl.
  - split; eauto.
  - destruct s as [|c s].
    + split; [done|]. by intros [post [=]].
    + rewrite andb_true_iff, N.eqb_eq, IH. split.
      * intros [-> [post ->]]. eauto.
      * intros [post [= -> ->]]. eauto.
Qed.

Lemma dot_matches_spec c : dot_matches c = true <-> c <> 10.
Proof.
  unfold dot_matches. rewrite negb_true_iff, N.eqb_neq. done.
Qed.

Lemma dot_plus_then_spec suffix : forall s taken,
  dot_plus_then suffix taken s = true
  <-> exists pre post,
        s = pre ++ suffix ++ post
        /\ (taken = true \/ pre <> []) /\ 10 ∉ pre.
Proof.
  induction s as [|c s IH]; intros taken.
  - simpl. rewrite orb_false_r, andb_true_iff, starts_with_spec. split.
    + intros [-> [post Hs]]. exists [], post. split_and!; auto.
      apply not_elem_of_nil.
    + intros (pre & post & Hs & Htaken & _).
      destruct pre as [|? ?]; [|done].
      split; [by destruct Htaken|eauto].
  - cbn [dot_plus_then].
    rewrite orb_true_iff, !andb_true_iff, starts_with_spec, dot_matches_spec,
      IH.
    split.
    + intros [[-> [post Hs]]|[Hc (pre & post & -> & _ & Hpre)]].
      * exists [], post. split_and!; auto. apply not_elem_of_nil.
      * exists (c :: pre), post. split_and!; auto.
        rewrite not_elem_of_cons. auto.
    + intros (pre & post & Hs & Htaken & Hpre).
      destruct pre as [|c' pre].
      * left. split; [by destruct Htaken|eauto].
      * injection Hs as <- ->. apply not_elem_of_cons in Hpre as [? ?].
        right. split; [done|]. exists pre, post. auto.
Qed.

Lemma re_match_studenti_spec email :
  re_match_studenti email = true <-> matches_studenti email.
Proof.
  unfold re_match_studenti, matches_studenti.
  rewrite dot_plus_then_spec. split.
  - intros (pre & post & ? & [?|?] & ?); [done|eauto].
  - intros (pre & post & ? & ? & ?). eauto 10.
Qed.

(** ** [page_oauth_authorize] *)

(** C5. Every failing run of the handler - the query parameters are
    missing, the OAuth exchange fails, the email is not verified, or it does
    not match the pattern - ends in the error page, with status 403 in the
    last two cases, and leaves the database as it was: no account is created
    or merged, no Matrix user is linked. *)
Theorem authorize_failure_leaves_database (oauth : oauth_result)
    (session : FlaskSession) (db : Database) :
  authorize_fails oauth ->
  page_oauth_authorize oauth session db
  = (ErrorPage (failure_details oauth) (failure_status oauth), db).
Proof.
  destruct oauth as [| |g]; simpl; [done|done|].
  intros [Hv|Hm].
  - by rewrite Hv.
  - destruct (g_email_verified g); [|done]. simpl.
    destruct (re_match_studenti (g_email g)) eqn:E; [|done].
    by apply re_match_studenti_spec in E.
Qed.

Lemma authorize_failure_leaves_database_witness :
  page_oauth_authorize BadRequestKeyError
    {| matrix_token := Some (lit "tok-phone") |} demo_db
  = (ErrorPage MissingQueryParameters 200, demo_db)
  /\ page_oauth_authorize
       (Authorized {| g_email_verified := false;
                      g_email := lit "123456@studenti.unimore.it";
                      given_name := None; family_name := None |})
       {| matrix_token := Some (lit "tok-phone") |} demo_db
     = (ErrorPage EmailNotVerified 403, demo_db).
Proof.
  split.
  - apply (authorize_failure_leaves_database BadRequestKeyError
             {| matrix_token := Some (lit "tok-phone") |} demo_db).
    exact I.
  - apply (authorize_failure_leaves_database
             (Authorized {| g_email_verified := false;
                            g_email := lit "123456@studenti.unimore.it";
                            given_name := None; family_name := None |})
             {| matrix_token := Some (lit "tok-phone") |} demo_db).
    left. reflexivity.
Defined.

Lemma merge_rows_elem a rows : a ∈ merge_rows a rows.
Proof.
  induction rows as [|r rows IH]; simpl; [by left|].
  case_bool_decide; [by left|by right].
Qed.

Lemma first_by_token_map t (f : MatrixUser -> MatrixUser) rows :
  (forall r, token (f r) = token r) ->
  first_by_token t (map f rows) = f <$> first_by_token t rows.
Proof.
  intros Hf. induction rows as [|r rows IH]; simpl; [done|].
  rewrite Hf. by case_bool_decide.
Qed.

(** The link page stores the token of a Matrix user in the session. *)
Lemma page_matrix_link_stores_token t session db u :
  first_by_token t (matrix_users db) = Some u ->
  page_matrix_link t session db
  = (RedirectToGoogle, {| matrix_token := Some t |}).
Proof. unfold page_matrix_link. by intros ->. Qed.

(** C4. With a token in the Flask session that belongs to a Matrix user,
    and a Google account whose email is verified and matches the pattern,
    the handler redirects to the profile page of the token and commits an
    account row with the email and the names that Google reports, and the
    Matrix user of the token linked to it. *)
Theorem authorize_links_account (session : FlaskSession) (db : Database)
    (g : GoogleAccount) (matrix_token' : pystr) (u : MatrixUser) :
  matrix_token session = Some matrix_token' ->
  matrix_token' <> [] ->
  first_by_token matrix_token' (matrix_users db) = Some u ->
  g_email_verified g = true ->
  matches_studenti (g_email g) ->
  exists db',
    page_oauth_authorize (Authorized g) session db
      = (RedirectToProfile matrix_token', db')
    /\ db' = set_account u (reported_account g) (merge (reported_account g) db)
    /\ reported_account g ∈ accounts db'
    /\ first_by_token matrix_token' (matrix_users db')
       = Some (with_account u (reported_account g))
    /\ account_email (with_account u (reported_account g)) = Some (g_email g)
    /\ id (with_account u (reported_account g)) = id u.
Proof.
  intros Hsession Hne Hu Hv Hm%re_match_studenti_spec.
  eexists. split.
  - unfold page_oauth_authorize. rewrite Hv, Hm, Hsession. simpl.
    destruct matrix_token' as [|c t]; [done|].
    unfold change, begin, commit, teardown, merge.
    cbn [working committed matrix_users]. rewrite Hu. reflexivity.
  - split; [reflexivity|]. split; [apply merge_rows_elem|].
    split; [|done].
    cbn [set_account merge matrix_users].
    rewrite first_by_token_map, Hu.
    + simpl. by rewrite bool_decide_eq_true_2.
    + intros r. by case_bool_decide.
Qed.

Lemma authorize_links_account_witness :
  exists db',
    page_oauth_authorize (Authorized demo_ada)
      {| matrix_token := Some (lit "tok-phone") |} demo_db
      = (RedirectToProfile (lit "tok-phone"), db')
    /\ db' = set_account demo_user_phone (reported_account demo_ada)
               (merge (reported_account demo_ada) demo_db)
    /\ reported_account demo_ada ∈ accounts db'
    /\ first_by_token (lit "tok-phone") (matrix_users db')
       = Some (with_account demo_user_phone (reported_account demo_ada))
    /\ account_email (with_account demo_user_phone (reported_account demo_ada))
       = Some (g_email demo_ada)
    /\ id (with_account demo_user_phone (reported_account demo_ada))
       = id demo_user_phone.
Proof.
  apply (authorize_links_account
           {| matrix_token := Some (lit "tok-phone") |} demo_db demo_ada
           (lit "tok-phone") demo_user_phone).
  - reflexivity.
  - vm_compute. discriminate.
  - vm_compute. reflexivity.
  - reflexivity.
  - apply re_match_studenti_spec. vm_compute. reflexivity.
Defined.

(** ** The data model *)

Lemma merge_rows_emails a rows e :
  e ∈ map email (merge_rows a rows) -> e = email a \/ e ∈ map email rows.
Proof.
  induction rows as [|r rows IH]; simpl.
  - intros ->%list_elem_of_singleton. by left.
  - case_bool_decide as Hr; simpl; rewrite !elem_of_cons.
    + rewrite Hr. tauto.
    + intros [->|H]; [tauto|]. destruct (IH H); tauto.
Qed.

Lemma merge_rows_NoDup a rows :
  NoDup (map email rows) -> NoDup (map email (merge_rows a rows)).
Proof.
  induction rows as [|r rows IH]; simpl.
  - intros _. apply NoDup_singleton.
  - rewrite NoDup_cons. intros [Hr Hrows].
    case_bool_decide as Ha; simpl; rewrite NoDup_cons.
    + by rewrite <- Ha.
    + split; [|auto]. intros [?|?]%merge_rows_emails; congruence.
Qed.

Lemma set_account_ids u a db :
  map id (matrix_users (set_account u a db)) = map id (matrix_users db).
Proof.
  unfold set_account. cbn [matrix_users]. rewrite map_map.
  apply map_ext. intros r. by case_bool_decide.
Qed.

Lemma authorize_database oauth session db :
  snd (page_oauth_authorize oauth session db) = db
  \/ exists u a,
       snd (page_oauth_authorize oauth session db)
       = set_account u a (merge a db).
Proof.
  unfold page_oauth_authorize.
  destruct oauth as [| |g]; [by left|by left|].
  destruct (g_email_verified g); [|by left]. simpl.
  destruct (re_match_studenti (g_email g)); [|by left]. simpl.
  destruct (matrix_token session) as [[|c t]|]; [by left| |by left].
  destruct (first_by_token _ _) as [u|]; [|by left].
  right. eauto.
Qed.

Lemma perform_consistent op db : consistent db -> consistent (perform op db).
Proof.
  intros [Hids Hemails]. destruct op as [| | |oauth session|a|u]; try done.
  - simpl. destruct (authorize_database oauth session db) as [->|(u & a & ->)];
      [done|].
    split; [by rewrite set_account_ids|].
    by apply merge_rows_NoDup.
  - simpl. unfold insert_account. case_bool_decide as Ha; [done|].
    split; [done|]. simpl. rewrite map_app. apply NoDup_app.
    split_and!; [done| |apply NoDup_singleton].
    intros e He ->%list_elem_of_singleton. done.
  - simpl. unfold insert_matrix_user. case_bool_decide as Hu; [done|].
    split; [|done]. simpl. rewrite map_app. apply NoDup_app.
    split_and!; [done| |apply NoDup_singleton].
    intros e He ->%list_elem_of_singleton. done.
Qed.

Lemma reachable_consistent db : reachable db -> consistent db.
Proof.
  intros [ops ->].
  assert (H : consistent create_all) by (split; apply NoDup_nil_2).
  revert H. generalize create_all.
  induction ops as [|op ops IH]; intros db H; simpl; [done|].
  by apply IH, perform_consistent.
Qed.

Lemma filter_key_absent {A} (key : A -> pystr) (e : pystr) (rows : list A) :
  e ∉ map key rows -> filter (fun a => key a = e) rows = [].
Proof.
  induction rows as [|r rows IH]; simpl; [done|].
  rewrite not_elem_of_cons. intros [Hr Hrows].
  rewrite filter_cons_False; [auto|congruence].
Qed.

(** Under a unique key at most one row has a given key. *)
Lemma filter_key_length {A} (key : A -> pystr) (e : pystr) (rows : list A) :
  NoDup (map key rows) ->
  (length (filter (fun a => key a = e) rows) <= 1)%nat.
Proof.
  induction rows as [|r rows IH]; simpl; [lia|].
  rewrite NoDup_cons. intros [Hr Hrows].
  rewrite filter_cons. case_decide as Hk; [|auto].
  rewrite filter_key_absent; [simpl; lia|congruence].
Qed.

Lemma demo_ops_database :
  fold_left (fun db op => perform op db) demo_ops create_all
  = {| accounts := [reported_account demo_ada];
       matrix_users :=
         [with_account demo_user_phone (reported_account demo_ada);
          with_account demo_user_laptop (reported_account demo_ada)] |}.
Proof. vm_compute. reflexivity. Qed.

(** C7. Every operation keeps the ids of the Matrix users and the emails of
    the accounts unique, and after it each Matrix user points to at most
    one account. A Matrix user can be there with no account (a null
    [account_email]), and one account can have several Matrix users
    pointing to it: both happen in databases that the operations build from
    the empty tables. *)
Theorem data_model_invariants (op : operation) (db : Database) :
  consistent db ->
  consistent (perform op db)
  /\ (forall u, u ∈ matrix_users (perform op db) ->
        (length (account_of (perform op db) u) <= 1)%nat)
  /\ (exists db0 u,
        reachable db0 /\ u ∈ matrix_users db0
        /\ account_email u = None /\ account_of db0 u = [])
  /\ (exists db0 a u1 u2,
        reachable db0 /\ a ∈ accounts db0 /\ id u1 <> id u2
        /\ u1 ∈ matrix_users_of db0 a /\ u2 ∈ matrix_users_of db0 a).
Proof.
  intros Hdb. apply (perform_consistent op) in Hdb as Hdb'.
  split; [done|]. split; [|split].
  - intros u _. unfold account_of. destruct (account_email u) as [e|].
    + apply (filter_key_length email), Hdb'.
    + simpl. lia.
  - exists (perform (InsertMatrixUser demo_user_phone) create_all),
      demo_user_phone.
    split; [by exists [InsertMatrixUser demo_user_phone]|].
    split; [vm_compute; left|done].
  - exists (fold_left (fun db op => perform op db) demo_ops create_all),
      (reported_account demo_ada),
      (with_account demo_user_phone (reported_account demo_ada)),
      (with_account demo_user_laptop (reported_account demo_ada)).
    split; [by exists demo_ops|]. rewrite demo_ops_database.
    split; [left|]. split; [vm_compute; discriminate|].
    split; vm_compute; [left|right; left].
Qed.

Lemma data_model_invariants_witness :
  consistent (perform (GetAuthorize (Authorized demo_ada)
                         {| matrix_token := Some (lit "tok-phone") |})
                demo_db)
  /\ (forall u,
        u ∈ matrix_users
              (perform (GetAuthorize (Authorized demo_ada)
                          {| matrix_token := Some (lit "tok-phone") |})
                 demo_db) ->
        (length (account_of
                   (perform (GetAuthorize (Authorized demo_ada)
                               {| matrix_token := Some (lit "tok-phone") |})
                      demo_db) u) <= 1)%nat)
  /\ (exists db0 u,
        reachable db0 /\ u ∈ matrix_users db0
        /\ account_email u = None /\ account_of db0 u = [])
  /\ (exists db0 a u1 u2,
        reachable db0 /\ a ∈ accounts db0 /\ id u1 <> id u2
        /\ u1 ∈ matrix_users_of db0 a /\ u2 ∈ matrix_users_of db0 a).
Proof.
  apply (data_model_invariants
           (GetAuthorize (Authorized demo_ada)
              {| matrix_token := Some (lit "tok-phone") |}) demo_db).
  split; apply (bool_decide_unpack _); vm_compute; exact I.
Defined.

(* ===================================================================== *)
(** * Further properties *)
(* ===================================================================== *)

(** ** The login with the shared secret *)

Example sha512_abc :
  hex (Sha512.sha512 (lit "abc"))
  = lit ("ddaf35a193617abacc417349ae20413112e6fa4e89a97ea20a9eeee64b55d39a"
         ++ "2192992a274fc1a836ba3c23a3feebbd454d4423643ce80e2a9ac94fa54ca49f").
Proof. vm_compute. reflexivity. Qed.

Example hmac_sha512_rfc4231_case2 :
  hmac_sha512_hexdigest (lit "Jefe") (lit "what do ya want for nothing?")
  = lit ("164b7a7bfcf819e2e395fbe73b56e0a387bd64222e831fd610270cd7ea250554"
         ++ "9758bf75c05a994a6d034f65f8f0e6fdcaeab1a34d4a6b4b636e070a38bce737").
Proof. vm_compute. reflexivity. Qed.

(** A key above the block size is hashed first. *)
Example hmac_sha512_long_key :
  hmac_sha512_hexdigest (repeat 107 200) (lit "@loki:example.org")
  = lit ("0ac43d19786ef193d27afeab57d4efc38995086de3218e630d914d959b921647"
         ++ "4da693779c8ddbd009e3e0b5a4c9e7e27dc4cfb9982ba844b395722b82766dfd").
Proof. vm_compute. reflexivity. Qed.

Lemma hmac_over_new digest block_size key msg :
  Hmac.hexdigest digest (Hmac.new digest block_size key (Some msg))
  = hex (Hmac.reference digest block_size key msg).
Proof. reflexivity. Qed.

(** X1. When the shared secret and the user id of the client can be encoded,
    [login_with_shared_secret] asks the homeserver once, with a
    [com.devture.shared_secret_auth] login of that user whose token is the
    hex digest of the HMAC-SHA512 of the user id keyed with the secret, and
    ends as the answer tells: it raises on a [LoginError] or an exception,
    and returns otherwise. When one of the two cannot be encoded it raises
    without asking anything. *)
Theorem login_sends_one_hmac_sha512 (self : ExtendedClient)
    (shared_secret : pystr) (http : list Response)
    (sdk : list (outcome nio_response)) :
  (forall key user_id answer rest,
     encode_utf8 shared_secret = Some key ->
     encode_utf8 (user self) = Some user_id ->
     sdk = answer :: rest ->
     login self shared_secret (homeserver http sdk)
     = (Some (logged_in answer),
        {| http := http; sdk := rest;
           log := [LoginRaw (login_body (user self) (device_id self)
                     (hex (Hmac.reference Sha512.sha512 128 key user_id)))]
        |}))
  /\ (encode_utf8 shared_secret = None \/ encode_utf8 (user self) = None ->
      login self shared_secret (homeserver http sdk)
      = (Some (Raise UnicodeEncodeError), homeserver http sdk)).
Proof.
  unfold login, login_with_shared_secret, bind, lift, str_encode.
  split.
  - intros key user_id answer rest -> -> ->.
    unfold login_raw, sdk_call, homeserver, hmac_sha512_hexdigest.
    cbn [Matrix.http Matrix.sdk log app]. rewrite hmac_over_new.
    destruct answer as [[]|]; reflexivity.
  - intros [->| ->]; [done|].
    by destruct (encode_utf8 shared_secret).
Qed.

Lemma login_sends_one_hmac_sha512_witness :
  login demo_client (lit "secret")
    (homeserver [] [Return (LoginResponse (lit "@loki:example.org")
                              (lit "Loki") (lit "syt_token"))])
  = (Some (Return tt),
     {| http := []; sdk := [];
        log := [LoginRaw (login_body (lit "@loki:example.org") (lit "Loki")
                  (hex (Hmac.reference Sha512.sha512 128 (lit "secret")
                          (lit "@loki:example.org"))))] |})
  /\ login demo_client [0xD800] (homeserver [] [])
     = (Some (Raise UnicodeEncodeError), homeserver [] []).
Proof.
  split.
  - exact (proj1 (login_sends_one_hmac_sha512 demo_client (lit "secret") []
                    [Return (LoginResponse (lit "@loki:example.org")
                               (lit "Loki") (lit "syt_token"))])
             (lit "secret") (lit "@loki:example.org") _ [] eq_refl eq_refl
             eq_refl).
  - apply (proj2 (login_sends_one_hmac_sha512 demo_client [0xD800] [] [])).
    left. reflexivity.
Defined.

(** The token of the sample login is the digest that Python's [hmac] gives
    for the key [secret] and the message [@loki:example.org]. *)
Example login_demo_token :
  hex (Hmac.reference Sha512.sha512 128 (lit "secret")
         (lit "@loki:example.org"))
  = lit ("46b9819c91e906821949eaa1f4fd259bc2d28c489d4e23a19439a6b9e7a13c3f"
         ++ "49c6ca79293a5ff464ce5c7fcd0f4c3e20e54815956f77a1640de9959b600cce").
Proof. vm_compute. reflexivity. Qed.

(** ** Registration, as a whole *)

Lemma str_encode_is_Some s :
  is_Some (encode_utf8 s) <-> exists b, str_encode s = Return b.
Proof.
  unfold str_encode. destruct (encode_utf8 s) as [b|]; split.
  - eauto.
  - intros _. by eexists.
  - by intros [? ?].
  - by intros [? ?].
Qed.

Lemma raise_for_status_ok r :
  status r < 400 <-> raise_for_status r = Return tt.
Proof.
  unfold raise_for_status. destruct (400 <=? status r) eqn:E.
  - apply N.leb_le in E. split; [lia|done].
  - apply N.leb_gt in E. done.
Qed.

(** X2. [register_with_shared_secret] returns exactly when the homeserver
    lets the registration through: the [GET] is answered below status 400
    with a JSON document whose [nonce] is a string, the secret, the nonce,
    the username and the password can be encoded, and the [POST] is answered
    below status 400. *)
Theorem register_returns_iff_accepted
    (shared_secret username displayname password : pystr)
    (http : list Response) (sdk : list (outcome nio_response)) :
  fst (register_with_shared_secret shared_secret username displayname
         password (homeserver http sdk)) = Some (Return tt)
  <-> registration_accepted shared_secret username password http.
Proof.
  unfold registration_accepted. split.
  - unfold register_with_shared_secret, homeserver, bind, send, lift,
      response_json, ret. cbn [Matrix.http Matrix.sdk log].
    destruct http as [|reply http]; [done|].
    destruct (raise_for_status reply) as [[]|] eqn:Hst; [|done].
    destruct (body reply) as [doc|] eqn:Hbody; [|done].
    destruct (getitem doc (lit "nonce")) as [nonce|] eqn:Hnonce; [|done].
    destruct (str_encode shared_secret) eqn:Hk; [|done].
    destruct (encode nonce) eqn:Hn; [|done].
    destruct (str_encode username) eqn:Hu; [|done].
    destruct (str_encode password) eqn:Hp; [|done].
    cbn [Matrix.http Matrix.sdk log].
    destruct http as [|registration rest]; [done|].
    destruct (raise_for_status registration) as [[]|] eqn:Hst'; [|done].
    intros _. destruct nonce as [| | |s| |]; try done.
    exists reply, registration, rest, doc, s.
    rewrite !raise_for_status_ok, !str_encode_is_Some. cbn [encode] in Hn.
    split_and!; eauto.
  - intros (reply & registration & rest & doc & nonce & -> & Hst & Hbody
            & Hnonce & [k Hk]%str_encode_is_Some & [n Hn]%str_encode_is_Some
            & [u Hu]%str_encode_is_Some & [p Hp]%str_encode_is_Some & Hst').
    apply raise_for_status_ok in Hst, Hst'.
    unfold register_with_shared_secret, homeserver, bind, send, lift,
      response_json, ret. cbn [Matrix.http Matrix.sdk log].
    rewrite Hst, Hbody, Hnonce, Hk. cbn [encode]. rewrite Hn, Hu, Hp.
    cbn [Matrix.http Matrix.sdk log]. by rewrite Hst'.
Qed.

Lemma register_returns_iff_accepted_witness :
  fst (register_with_shared_secret (lit "secret") (lit "pepper")
         (lit "Pepper") (lit "pass") (homeserver demo_register_http []))
  = Some (Return tt).
Proof.
  apply (proj2 (register_returns_iff_accepted (lit "secret") (lit "pepper")
                  (lit "Pepper") (lit "pass") demo_register_http [])).
  exists {| status := 200;
            body := Some (JObj [(lit "nonce", JStr (lit "abcd"))]) |},
    {| status := 200; body := Some (JObj []) |}, [],
    (JObj [(lit "nonce", JStr (lit "abcd"))]), (lit "abcd").
  repeat split; try reflexivity; by eexists.
Defined.

(** X3. When the answer to the [GET] gives no nonce - an error status, a
    body that is not JSON, a document without [nonce] - the registration
    raises and has sent the [GET] alone: no username, password or MAC
    leaves the client. *)
Theorem register_stops_without_nonce
    (shared_secret username displayname password : pystr)
    (reply : Response) (rest : list Response)
    (sdk : list (outcome nio_response)) :
  no_nonce reply ->
  exists e,
    register_with_shared_secret shared_secret username displayname password
      (homeserver (reply :: rest) sdk)
    = (Some (Raise e),
       {| http := rest; sdk := sdk; log := [Send register_get] |}).
Proof.
  unfold register_with_shared_secret, homeserver, bind, send, lift,
    response_json, raise_for_status. cbn [Matrix.http Matrix.sdk log app].
  intros [Hst|[Hbody|(doc & e & Hbody & Hnonce)]].
  - apply N.leb_le in Hst. rewrite Hst. eauto.
  - destruct (400 <=? status reply); [by eauto|]. rewrite Hbody. eauto.
  - destruct (400 <=? status reply); [by eauto|].
    rewrite Hbody, Hnonce. eauto.
Qed.

Lemma register_stops_without_nonce_witness :
  exists e,
    register_with_shared_secret (lit "secret") (lit "pepper") (lit "Pepper")
      (lit "pass")
      (homeserver [ {| status := 403; body := Some (JObj []) |} ] [])
    = (Some (Raise e),
       {| http := []; sdk := []; log := [Send register_get] |}).
Proof.
  apply (register_stops_without_nonce (lit "secret") (lit "pepper")
           (lit "Pepper") (lit "pass")
           {| status := 403; body := Some (JObj []) |} [] []).
  left. vm_compute. discriminate.
Defined.

(** ** Room hierarchy, off the good path *)

Section HierarchyRuns.
Variables (self : ExtendedClient) (room_id : pystr) (max_depth : Z)
  (suggested_only : bool).

Lemma take_all_but_last (c : json) (l : list json) :
  take (length l) (c :: l) ++ [default c (last l)] = c :: l.
Proof.
  revert c. induction l as [|x l IH]; intros c; [done|].
  cbn [length take app]. f_equal.
  rewrite <- (IH x) at 3. f_equal. f_equal.
  rewrite last_cons. by destruct (last l).
Qed.

(** The loop goes through pages that keep it going. *)
Lemma hierarchy_loop_through (good : list Response) :
  forall fuel rest sdk log0 current rooms,
    Forall continuing good ->
    hierarchy_loop (length good + fuel) self room_id max_depth suggested_only current
      rooms {| http := good ++ rest; sdk := sdk; log := log0 |}
    = hierarchy_loop fuel self room_id max_depth suggested_only
        (default current (last (map page_next_batch good)))
        (rooms ++ rooms_of good)
        {| http := rest; sdk := sdk;
           log := log0 ++ hierarchy_requests self room_id max_depth suggested_only (take (length good)
                                      (current :: map page_next_batch good))
        |}.
Proof.
  induction good as [|r good IH]; intros fuel rest sdk log0 current rooms Hgood.
  - simpl. unfold rooms_of. simpl. by rewrite !app_nil_r.
  - apply Forall_cons in Hgood as [[[rs Hrs] Hnb] Hgood].
    cbn [length Nat.add app hierarchy_loop]. unfold bind at 1.
    rewrite (hierarchy_page_run _ _ _ _ _ _ _ _ _ _ _ Hrs), Hnb.
    rewrite (IH _ _ _ _ _ _ Hgood).
    assert (default current (last (map page_next_batch (r :: good)))
            = default (page_next_batch r) (last (map page_next_batch good)))
      as -> by (cbn [map]; rewrite last_cons; by destruct (last _)).
    assert (rooms ++ rooms_of (r :: good) = (rooms ++ rs) ++ rooms_of good)
      as ->.
    { unfold rooms_of. cbn [map concat]. rewrite Hrs. simpl.
      by rewrite app_assoc. }
    unfold hierarchy_requests. cbn [length map take].
    by rewrite <- (app_assoc log0).
Qed.

(** A turn of the loop against a homeserver that answers no more. *)
Lemma hierarchy_page_starved sdk log0 current rooms :
  hierarchy_page self room_id max_depth suggested_only current rooms
    {| http := []; sdk := sdk; log := log0 |}
  = (None, {| http := []; sdk := sdk; log := log0 ++ hierarchy_requests self room_id max_depth suggested_only [current] |}).
Proof.
  unfold hierarchy_page, hierarchy_requests, hierarchy_request, bind, send.
  cbn [Matrix.http Matrix.sdk log map].
  destruct (truthy current); reflexivity.
Qed.

(** A turn of the loop on a page that makes it raise. *)
Lemma hierarchy_page_fails r e rest sdk log0 current rooms :
  page_failure r = Some e ->
  hierarchy_page self room_id max_depth suggested_only current rooms
    {| http := r :: rest; sdk := sdk; log := log0 |}
  = (Some (Raise e),
     {| http := rest; sdk := sdk; log := log0 ++ hierarchy_requests self room_id max_depth suggested_only [current] |}).
Proof.
  unfold page_failure, hierarchy_page, hierarchy_requests, hierarchy_request,
    bind, send, lift, response_json, getitem, unpack.
  cbn [Matrix.http Matrix.sdk log map].
  destruct (body r) as [[| | | | |d]|]; intros Hf;
    try (injection Hf as <-; destruct (truthy current); reflexivity).
  destruct (dict_lookup (lit "rooms") d) as [[| | | | |]|]; try done;
    injection Hf as <-; destruct (truthy current); reflexivity.
Qed.

(** The outcome of a turn depends on the body of the page alone. *)
Lemma hierarchy_page_body r r' rest rest' sdk sdk' log0 current rooms :
  body r = body r' ->
  exists o,
    hierarchy_page self room_id max_depth suggested_only current rooms
      {| http := r :: rest; sdk := sdk; log := log0 |}
    = (Some o,
       {| http := rest; sdk := sdk;
          log := log0 ++ hierarchy_requests self room_id max_depth
                           suggested_only [current] |})
    /\ hierarchy_page self room_id max_depth suggested_only current rooms
         {| http := r' :: rest'; sdk := sdk'; log := log0 |}
       = (Some o,
          {| http := rest'; sdk := sdk';
             log := log0 ++ hierarchy_requests self room_id max_depth
                              suggested_only [current] |}).
Proof.
  intros Hbody.
  unfold hierarchy_page, hierarchy_requests, hierarchy_request, bind, send,
    lift, response_json, ret. cbn [Matrix.http Matrix.sdk log map].
  rewrite <- Hbody.
  assert (Hq : (if truthy current
                then dict_set (lit "from") current
                       [(lit "max_depth", JStr (str_of_int max_depth));
                        (lit "suggested_only",
                          JStr (lower_str_of_bool suggested_only))]
                else [(lit "max_depth", JStr (str_of_int max_depth));
                      (lit "suggested_only",
                        JStr (lower_str_of_bool suggested_only))])
               = [(lit "max_depth", JStr (str_of_int max_depth));
                  (lit "suggested_only",
                    JStr (lower_str_of_bool suggested_only))]
                 ++ (if truthy current then [(lit "from", current)] else []))
    by (destruct (truthy current); reflexivity).
  rewrite Hq.
  destruct (body r) as [doc|]; [|by eauto].
  destruct (getitem doc (lit "rooms")) as [page|]; [|by eauto].
  destruct (unpack page); [|by eauto].
  destruct (get doc (lit "next_batch")) as [v|]; [|by eauto].
  destruct (negb (truthy v)); by eauto.
Qed.

Lemma hierarchy_loop_status_blind fuel :
  forall pages pages' sdk sdk' log0 current rooms,
    map body pages = map body pages' ->
    fst (hierarchy_loop fuel self room_id max_depth suggested_only current
           rooms {| http := pages; sdk := sdk; log := log0 |})
    = fst (hierarchy_loop fuel self room_id max_depth suggested_only current
             rooms {| http := pages'; sdk := sdk'; log := log0 |})
    /\ log (snd (hierarchy_loop fuel self room_id max_depth suggested_only
                   current rooms
                   {| http := pages; sdk := sdk; log := log0 |}))
       = log (snd (hierarchy_loop fuel self room_id max_depth suggested_only
                     current rooms
                     {| http := pages'; sdk := sdk'; log := log0 |})).
Proof.
  induction fuel as [|fuel IH]; intros pages pages' sdk sdk' log0 current
    rooms Hbodies; [done|].
  cbn [hierarchy_loop]. unfold bind.
  destruct pages as [|r rest], pages' as [|r' rest']; try done.
  injection Hbodies as Hbody Hbodies.
  destruct (hierarchy_page_body r r' rest rest' sdk sdk' log0 current rooms
              Hbody) as (o & -> & ->).
  destruct o as [[[c rs]|rs]|e]; [|done|done].
  by apply IH.
Qed.

(** Every request of the loop is a request for the hierarchy, and the SDK
    is left alone. *)
Lemma hierarchy_loop_log fuel :
  forall hs current rooms,
    exists cursors,
      log (snd (hierarchy_loop fuel self room_id max_depth suggested_only
                  current rooms hs))
      = log hs ++ hierarchy_requests self room_id max_depth suggested_only
                    cursors
      /\ (length cursors <= S (length (http hs)))%nat
      /\ sdk (snd (hierarchy_loop fuel self room_id max_depth suggested_only
                     current rooms hs)) = sdk hs.
Proof.
  induction fuel as [|fuel IH]; intros [pages sdk0 log0] current rooms.
  - exists []. simpl. rewrite app_nil_r. split_and!; [done|lia|done].
  - cbn [hierarchy_loop]. unfold bind.
    destruct pages as [|r rest].
    + rewrite hierarchy_page_starved. exists [current]. simpl.
      split_and!; [done|lia|done].
    + destruct (hierarchy_page_body r r rest rest sdk0 sdk0 log0 current rooms
                  eq_refl) as (o & -> & _).
      destruct o as [[[c rs]|rs]|e];
        try (exists [current]; simpl; split_and!; [done|lia|done]).
      destruct (IH {| http := rest; sdk := sdk0;
                      log := log0 ++ hierarchy_requests self room_id max_depth
                                       suggested_only [current] |} c rs)
        as (cursors & -> & Hlen & ->).
      exists (current :: cursors). cbn [log Matrix.http Matrix.sdk] in *.
      split_and!; [|simpl; lia|done].
      unfold hierarchy_requests. cbn [map]. by rewrite <- app_assoc.
Qed.

(** X4. While every page has its rooms and a [next_batch] that counts as
    true, [room_hierarchy] does not return: against any number of such
    pages it has asked for one page more, each request after the first with
    the [next_batch] of the page before, and is waiting for the answer.
    Nothing in the loop bounds the number of pages. *)
Theorem room_hierarchy_follows_every_cursor
    (pages : list Response) (sdk : list (outcome nio_response)) :
  Forall continuing pages ->
  room_hierarchy self room_id max_depth suggested_only (homeserver pages sdk)
  = (None,
     {| http := []; sdk := sdk;
        log := hierarchy_requests self room_id max_depth suggested_only
                 (JNull :: map page_next_batch pages) |}).
Proof.
  intros Hpages. unfold room_hierarchy, homeserver. cbn [Matrix.http].
  rewrite <- (app_nil_r pages) at 2. rewrite <- Nat.add_1_r.
  rewrite (hierarchy_loop_through pages 1 [] sdk [] JNull [] Hpages).
  cbn [hierarchy_loop]. unfold bind. rewrite hierarchy_page_starved.
  f_equal. f_equal. cbn [app]. unfold hierarchy_requests.
  rewrite <- map_app. f_equal.
  rewrite <- (length_map page_next_batch). apply take_all_but_last.
Qed.

(** X5. A page that cannot be read - a body that is not JSON, a document
    without [rooms], [rooms] that cannot be unpacked - makes
    [room_hierarchy] raise, whatever the pages before it held: the rooms
    gathered so far are lost, and no page after it is asked for. *)
Theorem room_hierarchy_raises_on_broken_page
    (good : list Response) (bad : Response) (rest : list Response)
    (sdk : list (outcome nio_response)) (e : exn) :
  Forall continuing good ->
  page_failure bad = Some e ->
  room_hierarchy self room_id max_depth suggested_only
    (homeserver (good ++ bad :: rest) sdk)
  = (Some (Raise e),
     {| http := rest; sdk := sdk;
        log := hierarchy_requests self room_id max_depth suggested_only
                 (JNull :: map page_next_batch good) |}).
Proof.
  intros Hgood Hbad. unfold room_hierarchy, homeserver. cbn [Matrix.http].
  replace (S (length (good ++ bad :: rest)))
    with (length good + S (S (length rest)))%nat
    by (rewrite length_app; simpl; lia).
  rewrite (hierarchy_loop_through good _ (bad :: rest) sdk [] JNull []
             Hgood).
  cbn [hierarchy_loop]. unfold bind.
  rewrite (hierarchy_page_fails _ _ _ _ _ _ _ Hbad).
  f_equal. f_equal. cbn [app]. unfold hierarchy_requests.
  rewrite <- map_app. f_equal.
  rewrite <- (length_map page_next_batch). apply take_all_but_last.
Qed.

(** X6. [room_hierarchy] reads the bodies of the responses and nothing
    else: two homeservers whose answers have the same bodies, whatever
    their status codes, get the same requests and the same outcome. *)
Theorem room_hierarchy_reads_bodies_only
    (pages pages' : list Response) (sdk : list (outcome nio_response)) :
  map body pages = map body pages' ->
  fst (room_hierarchy self room_id max_depth suggested_only
         (homeserver pages sdk))
  = fst (room_hierarchy self room_id max_depth suggested_only
           (homeserver pages' sdk))
  /\ log (snd (room_hierarchy self room_id max_depth suggested_only
                 (homeserver pages sdk)))
     = log (snd (room_hierarchy self room_id max_depth suggested_only
                   (homeserver pages' sdk))).
Proof.
  intros Hbodies. unfold room_hierarchy, homeserver. cbn [Matrix.http].
  assert (length pages = length pages') as ->
    by (rewrite <- (length_map body pages), Hbodies; apply length_map).
  by apply hierarchy_loop_status_blind.
Qed.

(** X7. Whatever the homeserver answers, [room_hierarchy] sends nothing but
    [GET]s for the hierarchy of the room, all with the same [max_depth],
    [suggested_only] and bearer token, at most one more than there are
    answers, and makes no SDK call. *)
Theorem room_hierarchy_sends_hierarchy_requests_only
    (pages : list Response) (sdk : list (outcome nio_response)) :
  exists cursors,
    log (snd (room_hierarchy self room_id max_depth suggested_only
                (homeserver pages sdk)))
    = hierarchy_requests self room_id max_depth suggested_only cursors
    /\ (length cursors <= S (length pages))%nat
    /\ Matrix.sdk (snd (room_hierarchy self room_id max_depth suggested_only
                          (homeserver pages sdk))) = sdk.
Proof.
  unfold room_hierarchy.
  destruct (hierarchy_loop_log (S (length (http (homeserver pages sdk))))
              (homeserver pages sdk) JNull []) as (cursors & Hlog & Hlen & Hsdk).
  exists cursors. by rewrite Hlog, Hsdk.
Qed.

End HierarchyRuns.

Lemma room_hierarchy_follows_every_cursor_witness :
  room_hierarchy demo_client (lit "!space:example.org") 2 false
    (homeserver demo_pages_endless [])
  = (None,
     {| http := []; sdk := [];
        log := hierarchy_requests demo_client (lit "!space:example.org") 2
                 false (JNull :: map page_next_batch demo_pages_endless) |}).
Proof.
  apply (room_hierarchy_follows_every_cursor demo_client
           (lit "!space:example.org") 2 false demo_pages_endless []).
  repeat constructor; vm_compute; eauto.
Defined.

Lemma room_hierarchy_raises_on_broken_page_witness :
  room_hierarchy demo_client (lit "!space:example.org") 2 false
    (homeserver demo_pages_broken [])
  = (Some (Raise (KeyError (lit "rooms"))),
     {| http := drop 2 demo_pages_broken; sdk := [];
        log := hierarchy_requests demo_client (lit "!space:example.org") 2
                 false
                 (JNull :: map page_next_batch (take 1 demo_pages_broken)) |}).
Proof.
  apply (room_hierarchy_raises_on_broken_page demo_client
           (lit "!space:example.org") 2 false (take 1 demo_pages_broken)
           {| status := 403;
              body := Some (JObj [(lit "errcode",
                                    JStr (lit "M_FORBIDDEN"))]) |}
           (drop 2 demo_pages_broken) [] (KeyError (lit "rooms"))).
  - repeat constructor; vm_compute; eauto.
  - reflexivity.
Defined.

Lemma room_hierarchy_reads_bodies_only_witness :
  fst (room_hierarchy demo_client (lit "!space:example.org") 2 false
         (homeserver demo_pages []))
  = fst (room_hierarchy demo_client (lit "!space:example.org") 2 false
           (homeserver (map (fun r => {| status := 502; body := body r |})
                          demo_pages) []))
  /\ log (snd (room_hierarchy demo_client (lit "!space:example.org") 2 false
                 (homeserver demo_pages [])))
     = log (snd (room_hierarchy demo_client (lit "!space:example.org") 2
                   false
                   (homeserver
                      (map (fun r => {| status := 502; body := body r |})
                         demo_pages) []))).
Proof.
  apply (room_hierarchy_reads_bodies_only demo_client
           (lit "!space:example.org") 2 false demo_pages
           (map (fun r => {| status := 502; body := body r |}) demo_pages)
           []).
  reflexivity.
Defined.

(** ** The state file over a whole run *)

Lemma set_next_batch_twice self a b :
  set_next_batch (set_next_batch self a) b = set_next_batch self b.
Proof. reflexivity. Qed.

Lemma set_next_batch_same self : set_next_batch self (next_batch self) = self.
Proof. by destruct self. Qed.

(** Writing one key again and again leaves what the last write put there. *)
Lemma insert_over_inserts {A} (path : pystr) (last : file) (f : A -> file)
    (xs : list A) (m : gmap pystr file) :
  <[path := last]> (fold_left (fun m x => <[path := f x]> m) xs m)
  = <[path := last]> m.
Proof.
  revert m. induction xs as [|x xs IH]; intros m; simpl; [done|].
  by rewrite IH, insert_insert_eq.
Qed.

(** The run of the sync itself, once the dump task is there: the client
    ends on the last cursor, and the state file was written at each tick of
    the timer, with the cursor of that moment. *)
Lemma during_sync_run events : forall self p,
  dump_task p = Some Running ->
  fold_left during_sync events (self, p)
  = (set_next_batch self (last_cursor events (next_batch self)),
     {| files :=
          fold_left (fun m c => <[state_path self := JsonText (state_doc c)]> m)
            (cursors_at_ticks events (next_batch self)) (files p);
        dump_task := Some Running;
        effects :=
          effects p
          ++ map (fun c => Dumped (state_path self) (state_doc c))
               (cursors_at_ticks events (next_batch self)) |}).
Proof.
  induction events as [|ev events IH]; intros self p Htask.
  - simpl. rewrite set_next_batch_same, app_nil_r, <- Htask. by destruct p.
  - destruct ev as [v|]; cbn [fold_left during_sync].
    + rewrite (IH _ _ Htask). by rewrite set_next_batch_twice.
    + rewrite Htask, IH; [|done].
      cbn [cursors_at_ticks fold_left map last_cursor].
      unfold _dump_state_regularly_period, dump_state, state_doc.
      cbn [files effects]. rewrite state_data_next_batch.
      by rewrite <- app_assoc.
Qed.

(** [sync_forever] in closed form, from a start with the state file missing
    or loadable. *)
Lemma sync_forever_closed_form self events ending p :
  files p !! state_path self = None \/ (exists v, loadable self p v) ->
  sync_forever self events ending p
  = (end_outcome ending,
     set_next_batch self (last_cursor events (cursor_at_start self p)),
     {| files :=
          <[state_path self :=
              JsonText (state_doc
                          (last_cursor events (cursor_at_start self p)))]>
            (files p);
        dump_task := Some Cancelled;
        effects :=
          effects p ++ startup_effects self p
          ++ map (fun c => Dumped (state_path self) (state_doc c))
               (cursors_at_ticks events (cursor_at_start self p))
          ++ [TaskCancel (lit "Client stopped syncing.");
              Dumped (state_path self)
                (state_doc (last_cursor events (cursor_at_start self p)))]
     |}).
Proof.
  intros Hstart.
  unfold sync_forever, load_state, startup_effects, cursor_at_start.
  cbn [files]. fold (state_path self).
  destruct Hstart as [Hnone|[v (data & Hfile & Hget)]].
  - rewrite Hnone. rewrite during_sync_run; [|done].
    unfold dump_state. cbn [files effects dump_task next_batch].
    fold (state_path self). rewrite state_data_next_batch.
    cbn [set_next_batch next_batch]. unfold state_doc at 1.
    rewrite (insert_over_inserts (state_path self)).
    f_equal. f_equal. rewrite <- !app_assoc. reflexivity.
  - rewrite Hfile, Hget. rewrite during_sync_run; [|done].
    unfold dump_state. cbn [files effects dump_task next_batch].
    fold (state_path self). rewrite state_data_next_batch.
    cbn [set_next_batch next_batch]. unfold state_doc at 1.
    change (state_path (set_next_batch self v)) with (state_path self).
    rewrite (insert_over_inserts (state_path self)).
    f_equal. f_equal. rewrite <- !app_assoc. reflexivity.
Qed.

(** The state file is missing, can be loaded, or cannot. *)
Lemma state_file_cases self p :
  files p !! state_path self = None
  \/ (exists v, loadable self p v)
  \/ (exists e, unloadable self p e).
Proof.
  unfold loadable, unloadable.
  destruct (files p !! state_path self) as [[data|text]|] eqn:Hfile.
  - destruct (getitem data (lit "next_batch")) as [v|e] eqn:Hget.
    + right. left. exists v, data. done.
    + right. right. exists e. right. exists data. done.
  - right. right. exists JSONDecodeError. left. eauto.
  - by left.
Qed.

Lemma getitem_never_file_not_found data k :
  getitem data k <> Raise FileNotFoundError.
Proof.
  unfold getitem. destruct data; try done.
  by destruct (dict_lookup k fields).
Qed.

(** [sync_forever] on a state file that cannot be loaded. *)
Lemma sync_forever_unloadable self events ending p e :
  unloadable self p e ->
  sync_forever self events ending p
  = (Raise e, self,
     {| files := files p; dump_task := dump_task p;
        effects := effects p ++ [Mkdir (store_dir self)] |}).
Proof.
  unfold sync_forever, load_state. cbn [files]. fold (state_path self).
  intros [[-> [text ->]]|(data & -> & Hget)]; [done|].
  rewrite Hget. pose proof (getitem_never_file_not_found data
                              (lit "next_batch")) as Hne.
  rewrite Hget in Hne. by destruct e.
Qed.

(** X8. A state file that is there but cannot be loaded - it is not JSON,
    or its document has no [next_batch] - stops [sync_forever] before the
    sync starts: the error of the load leaves the call, no dump task is
    created, nothing is dumped, and the file stays as it is. *)
Theorem sync_forever_stops_on_unloadable_state (self : ExtendedClient)
    (events : list sync_event) (ending : sync_end) (p : Process) (e : exn) :
  unloadable self p e ->
  exists p',
    sync_forever self events ending p = (Raise e, self, p')
    /\ files p' = files p
    /\ dump_task p' = dump_task p
    /\ effects p' = effects p ++ [Mkdir (store_dir self)].
Proof.
  intros Hbad. rewrite (sync_forever_unloadable _ _ _ _ _ Hbad). eauto.
Qed.

Lemma sync_forever_stops_on_unloadable_state_witness :
  exists p',
    sync_forever demo_client demo_events SyncReturned demo_process_corrupt
    = (Raise JSONDecodeError, demo_client, p')
    /\ files p' = files demo_process_corrupt
    /\ dump_task p' = dump_task demo_process_corrupt
    /\ effects p'
       = effects demo_process_corrupt ++ [Mkdir (store_dir demo_client)].
Proof.
  apply (sync_forever_stops_on_unloadable_state demo_client demo_events
           SyncReturned demo_process_corrupt JSONDecodeError).
  left. split; [reflexivity|]. exists (lit "{"). reflexivity.
Defined.

(** X9. From a start with the state file missing or loadable, the effects
    of [sync_forever] are, in order: the store directory is made, the state
    is loaded when the file is there, the dump task is created, the state
    is dumped at each tick of the timer with the cursor of that moment, the
    task is cancelled, and the last cursor is dumped. Sync responses between
    two ticks reach the file with the next tick or at the end. *)
Theorem sync_forever_dumps_at_each_tick (self : ExtendedClient)
    (events : list sync_event) (ending : sync_end) (p : Process) :
  files p !! state_path self = None \/ (exists v, loadable self p v) ->
  effects (snd (sync_forever self events ending p))
  = effects p ++ startup_effects self p
    ++ map (fun c => Dumped (state_path self) (state_doc c))
         (cursors_at_ticks events (cursor_at_start self p))
    ++ [TaskCancel (lit "Client stopped syncing.");
        Dumped (state_path self)
          (state_doc (last_cursor events (cursor_at_start self p)))].
Proof.
  intros Hstart. by rewrite (sync_forever_closed_form _ _ _ _ Hstart).
Qed.

Lemma sync_forever_dumps_at_each_tick_witness :
  effects (snd (sync_forever demo_client demo_events SyncCancelled
                  demo_process_stored))
  = effects demo_process_stored
    ++ startup_effects demo_client demo_process_stored
    ++ map (fun c => Dumped (state_path demo_client) (state_doc c))
         (cursors_at_ticks demo_events
            (cursor_at_start demo_client demo_process_stored))
    ++ [TaskCancel (lit "Client stopped syncing.");
        Dumped (state_path demo_client)
          (state_doc (last_cursor demo_events
                        (cursor_at_start demo_client demo_process_stored)))].
Proof.
  apply (sync_forever_dumps_at_each_tick demo_client demo_events
           SyncCancelled demo_process_stored).
  right. exists (JStr (lit "s0")), (state_doc (JStr (lit "s0"))).
  split; reflexivity.
Defined.

Lemma last_cursor_app events events' start :
  last_cursor (events ++ events') start
  = last_cursor events' (last_cursor events start).
Proof. unfold last_cursor. apply fold_left_app. Qed.

(** X11. A run of [sync_forever] picks up where the run before it stopped:
    after a first run that started with the state file missing or loadable,
    a client on the same store path starts from the last cursor of that
    run, whatever cursor it was created with, and ends on the last cursor
    of both runs. *)
Theorem sync_forever_resumes (self other : ExtendedClient)
    (events events' : list sync_event) (ending ending' : sync_end)
    (p : Process) :
  files p !! state_path self = None \/ (exists v, loadable self p v) ->
  store_path other = store_path self ->
  exists self1 p1 self2 p2,
    sync_forever self events ending p = (end_outcome ending, self1, p1)
    /\ sync_forever other events' ending' p1
       = (end_outcome ending', self2, p2)
    /\ cursor_at_start other p1 = next_batch self1
    /\ next_batch self2
       = last_cursor (events ++ events') (cursor_at_start self p)
    /\ files p2 !! state_path self
       = Some (JsonText (state_doc (next_batch self2))).
Proof.
  intros Hstart Hstore.
  assert (Hpath : state_path other = state_path self)
    by (unfold state_path; by rewrite Hstore).
  rewrite (sync_forever_closed_form self _ _ _ Hstart).
  set (final := last_cursor events (cursor_at_start self p)).
  set (p1 := {| files := _ |}).
  assert (Hload : loadable other p1 final).
  { exists (state_doc final). split; [|reflexivity].
    subst p1. cbn [files]. rewrite Hpath. apply lookup_insert_eq. }
  assert (Hcur : cursor_at_start other p1 = final).
  { destruct Hload as (data & Hfile & Hget). unfold cursor_at_start.
    by rewrite Hfile, Hget. }
  exists (set_next_batch self final), p1.
  rewrite (sync_forever_closed_form other _ _ p1
             (or_intror (ex_intro _ _ Hload))).
  eexists _, _. split; [reflexivity|]. split; [reflexivity|].
  rewrite Hcur, last_cursor_app. split; [done|]. split; [done|].
  cbn [files next_batch set_next_batch]. rewrite Hpath.
  apply lookup_insert_eq.
Qed.

Lemma sync_forever_resumes_witness :
  exists self1 p1 self2 p2,
    sync_forever demo_client demo_events SyncCancelled (process ∅)
      = (end_outcome SyncCancelled, self1, p1)
    /\ sync_forever demo_client_rooms [TimerFired] SyncReturned p1
       = (end_outcome SyncReturned, self2, p2)
    /\ cursor_at_start demo_client_rooms p1 = next_batch self1
    /\ next_batch self2
       = last_cursor (demo_events ++ [TimerFired])
           (cursor_at_start demo_client (process ∅))
    /\ files p2 !! state_path demo_client
       = Some (JsonText (state_doc (next_batch self2))).
Proof.
  apply (sync_forever_resumes demo_client demo_client_rooms demo_events
           [TimerFired] SyncCancelled SyncReturned (process ∅)).
  - left. reflexivity.
  - reflexivity.
Defined.

(** ** The state file, dump after dump *)





(** ** The pattern, further *)

(** X13. The pattern is matched at the start of the email and is not
    anchored at its end: an email that passes still passes with anything
    appended to it. *)
Theorem re_match_studenti_ignores_tail (email tail : pystr) :
  re_match_studenti email = true ->
  re_match_studenti (email ++ tail) = true.
Proof.
  rewrite !re_match_studenti_spec.
  intros (pre & post & -> & Hpre & Hnl).
  exists pre, (post ++ tail). by rewrite <- !app_assoc.
Qed.

Lemma re_match_studenti_ignores_tail_witness :
  re_match_studenti (lit "123456@studenti.unimore.it" ++ lit ".example.org")
  = true.
Proof.
  apply (re_match_studenti_ignores_tail (lit "123456@studenti.unimore.it")
           (lit ".example.org")).
  vm_compute. reflexivity.
Defined.

(** ** [page_oauth_authorize], case by case *)

(** The handler leaves the database alone and does not redirect, or it is
    on its one path to the commit. *)
Lemma authorize_cases oauth session db :
  (snd (page_oauth_authorize oauth session db) = db
   /\ forall t, fst (page_oauth_authorize oauth session db)
                <> RedirectToProfile t)
  \/ exists g t u,
       oauth = Authorized g
       /\ g_email_verified g = true
       /\ re_match_studenti (g_email g) = true
       /\ matrix_token session = Some t
       /\ t <> []
       /\ first_by_token t (matrix_users db) = Some u
       /\ page_oauth_authorize oauth session db
          = (RedirectToProfile t,
             set_account u (reported_account g)
               (merge (reported_account g) db)).
Proof.
  unfold page_oauth_authorize.
  destruct oauth as [| |g]; [by left|by left|].
  destruct (g_email_verified g) eqn:Hv; [|by left]. simpl.
  destruct (re_match_studenti (g_email g)) eqn:Hm; [|by left]. simpl.
  destruct (matrix_token session) as [[|c t]|] eqn:Ht; [by left| |by left].
  unfold change, begin, commit, teardown, merge.
  cbn [working committed matrix_users].
  destruct (first_by_token (c :: t) (matrix_users db)) as [u|] eqn:Hu;
    [|by left].
  right. exists g, (c :: t), u. by split_and!.
Qed.

Lemma authorize_success g t u session db :
  g_email_verified g = true ->
  re_match_studenti (g_email g) = true ->
  matrix_token session = Some t ->
  t <> [] ->
  first_by_token t (matrix_users db) = Some u ->
  page_oauth_authorize (Authorized g) session db
  = (RedirectToProfile t,
     set_account u (reported_account g) (merge (reported_account g) db)).
Proof.
  intros Hv Hm Ht Hne Hu. unfold page_oauth_authorize.
  rewrite Hv, Hm, Ht. simpl. destruct t as [|c t]; [done|].
  unfold change, begin, commit, teardown, merge.
  cbn [working committed matrix_users]. by rewrite Hu.
Qed.

(** X14. The handler changes the database on one path only, the one that
    ends in the redirect to the profile page: whenever it answers with
    anything else - an error page, a 404, or nothing - the database is the
    one it started from. *)
Theorem authorize_commits_only_with_redirect (oauth : oauth_result)
    (session : FlaskSession) (db : Database) :
  (forall t, fst (page_oauth_authorize oauth session db)
             <> RedirectToProfile t) ->
  snd (page_oauth_authorize oauth session db) = db.
Proof.
  intros Hno.
  destruct (authorize_cases oauth session db)
    as [[Hdb _]|(g & t & u & _ & _ & _ & _ & _ & _ & Heq)]; [done|].
  exfalso. apply (Hno t). by rewrite Heq.
Qed.

Lemma authorize_commits_only_with_redirect_witness :
  snd (page_oauth_authorize (Authorized demo_ada)
         {| matrix_token := Some (lit "tok-unknown") |} demo_db)
  = demo_db.
Proof.
  apply (authorize_commits_only_with_redirect (Authorized demo_ada)
           {| matrix_token := Some (lit "tok-unknown") |} demo_db).
  intros t. vm_compute. discriminate.
Defined.

(** X15. A verified account of the university that reaches the handler
    without a Matrix token in the session (none, or an empty one) gets no
    response from the view, and the account merged for it is not committed;
    with a token that no Matrix user carries it gets a 404, and no account
    is committed either. *)
Theorem authorize_without_matrix_user (g : GoogleAccount)
    (session : FlaskSession) (db : Database) :
  g_email_verified g = true ->
  re_match_studenti (g_email g) = true ->
  (matrix_token session = None \/ matrix_token session = Some [] ->
   page_oauth_authorize (Authorized g) session db = (NoResponse, db))
  /\ (forall t, matrix_token session = Some t -> t <> [] ->
        first_by_token t (matrix_users db) = None ->
        page_oauth_authorize (Authorized g) session db = (NotFound, db)).
Proof.
  intros Hv Hm. unfold page_oauth_authorize. rewrite Hv, Hm. simpl. split.
  - by intros [-> | ->].
  - intros t -> Hne Hnone. destruct t as [|c t]; [done|].
    unfold change, begin, teardown, merge.
    cbn [working committed matrix_users]. by rewrite Hnone.
Qed.

Lemma authorize_without_matrix_user_witness :
  page_oauth_authorize (Authorized demo_ada) {| matrix_token := None |}
    demo_db
  = (NoResponse, demo_db)
  /\ page_oauth_authorize (Authorized demo_ada)
       {| matrix_token := Some (lit "tok-unknown") |} demo_db
     = (NotFound, demo_db).
Proof.
  split.
  - apply (proj1 (authorize_without_matrix_user demo_ada
                    {| matrix_token := None |} demo_db eq_refl eq_refl)).
    left. reflexivity.
  - apply (proj2 (authorize_without_matrix_user demo_ada
                    {| matrix_token := Some (lit "tok-unknown") |} demo_db
                    eq_refl eq_refl) (lit "tok-unknown")).
    + reflexivity.
    + vm_compute. discriminate.
    + reflexivity.
Defined.

Lemma merge_rows_idem a rows :
  merge_rows a (merge_rows a rows) = merge_rows a rows.
Proof.
  induction rows as [|r rows IH]; simpl.
  - by rewrite bool_decide_eq_true_2.
  - case_bool_decide as Hr; simpl.
    + by rewrite bool_decide_eq_true_2.
    + by rewrite bool_decide_eq_false_2, IH.
Qed.

Lemma merge_rows_other a r rows :
  r ∈ rows -> email r <> email a -> r ∈ merge_rows a rows.
Proof.
  intros Hr Hne. induction rows as [|r' rows IH]; simpl;
    [by apply elem_of_nil in Hr|].
  apply elem_of_cons in Hr as [->|Hr].
  - rewrite bool_decide_eq_false_2; [by left|done].
  - case_bool_decide; right; [done|auto].
Qed.

Lemma merge_rows_keeps a rows e :
  e ∈ map email rows -> e ∈ map email (merge_rows a rows).
Proof.
  induction rows as [|r rows IH]; simpl; [by intros ?%elem_of_nil|].
  rewrite elem_of_cons. case_bool_decide as Hr; simpl; rewrite elem_of_cons.
  - rewrite Hr. tauto.
  - intros [->|?]; auto.
Qed.

Lemma merge_rows_own a rows : email a ∈ map email (merge_rows a rows).
Proof.
  induction rows as [|r rows IH]; simpl; [by left|].
  case_bool_decide; simpl; [by left|by right].
Qed.

Lemma first_by_token_set_account t u a db v :
  first_by_token t (matrix_users db) = Some v ->
  id v = id u ->
  first_by_token t (matrix_users (set_account u a db))
  = Some (with_account v a).
Proof.
  intros Hv Hid. cbn [set_account matrix_users].
  rewrite first_by_token_map, Hv.
  - simpl. by rewrite bool_decide_eq_true_2.
  - intros r. by case_bool_decide.
Qed.

Lemma authorize_database_idem u a db :
  set_account (with_account u a) a (merge a (set_account u a (merge a db)))
  = set_account u a (merge a db).
Proof.
  unfold set_account, merge. cbn [accounts matrix_users id with_account].
  f_equal; [apply merge_rows_idem|].
  rewrite map_map. apply map_ext. intros r.
  destruct (bool_decide (id r = id u)) eqn:Hr.
  - cbn [id with_account]. by rewrite Hr.
  - by rewrite Hr.
Qed.

(** X16. The handler is idempotent: run again with the same answer of
    Google and the same session on the database it left, it gives the same
    response and leaves the database as it is. *)
Theorem authorize_twice (oauth : oauth_result) (session : FlaskSession)
    (db : Database) :
  page_oauth_authorize oauth session
    (snd (page_oauth_authorize oauth session db))
  = page_oauth_authorize oauth session db.
Proof.
  destruct (authorize_cases oauth session db)
    as [[Hdb _]|(g & t & u & -> & Hv & Hm & Ht & Hne & Hu & Heq)].
  - by rewrite Hdb.
  - rewrite Heq. cbn [snd].
    rewrite (authorize_success g t (with_account u (reported_account g)));
      try done.
    + f_equal. apply authorize_database_idem.
    + by apply first_by_token_set_account.
Qed.



(** X18. Whatever its input, the handler adds, removes and reorders no
    Matrix user and changes no id and no token; and every account row that
    was there is still there afterwards, unless it is the row of the email
    that Google reports. *)
Theorem authorize_keeps_users_and_other_accounts (oauth : oauth_result)
    (session : FlaskSession) (db : Database) :
  map id (matrix_users (snd (page_oauth_authorize oauth session db)))
  = map id (matrix_users db)
  /\ map token (matrix_users (snd (page_oauth_authorize oauth session db)))
     = map token (matrix_users db)
  /\ forall a, a ∈ accounts db ->
       a ∈ accounts (snd (page_oauth_authorize oauth session db))
       \/ exists g, oauth = Authorized g /\ email a = g_email g.
Proof.
  destruct (authorize_cases oauth session db)
    as [[-> _]|(g & t & u & -> & _ & _ & _ & _ & _ & ->)]; [by auto|].
  cbn [snd]. split; [by rewrite set_account_ids|]. split.
  - cbn [set_account merge matrix_users]. rewrite map_map.
    apply map_ext. intros r. by case_bool_decide.
  - intros a Ha. cbn [set_account merge accounts].
    destruct (decide (email a = g_email g)) as [He|He]; [by eauto|].
    left. by apply merge_rows_other.
Qed.

(** X19. The handler keeps the links sound: when every link of a Matrix
    user pointed to an account of the table before, every link does so
    afterwards. *)
Theorem authorize_keeps_references (oauth : oauth_result)
    (session : FlaskSession) (db : Database) :
  references_exist db ->
  references_exist (snd (page_oauth_authorize oauth session db)).
Proof.
  intros Hdb.
  destruct (authorize_cases oauth session db)
    as [[-> _]|(g & t & u & -> & _ & _ & _ & _ & _ & ->)]; [done|].
  cbn [snd]. intros r e Hr He.
  cbn [set_account merge matrix_users accounts] in *.
  apply list_elem_of_In, in_map_iff in Hr as (r0 & Hr0 & Hin).
  apply list_elem_of_In in Hin.
  destruct (bool_decide (id r0 = id u)); subst r.
  - injection He as <-. apply (merge_rows_own (reported_account g)).
  - apply merge_rows_keeps. by apply (Hdb r0).
Qed.

Lemma authorize_keeps_references_witness :
  references_exist (snd (page_oauth_authorize (Authorized demo_ada)
                           demo_session demo_db)).
Proof.
  apply (authorize_keeps_references (Authorized demo_ada) demo_session
           demo_db).
  intros u e Hu He. vm_compute in Hu.
  repeat (apply elem_of_cons in Hu as [->|Hu]; [discriminate He|]).
  by apply elem_of_nil in Hu.
Defined.

Lemma authorize_keeps_users_and_other_accounts_witness :
  map id (matrix_users (snd (page_oauth_authorize (Authorized demo_ada)
                               demo_session demo_db)))
  = map id (matrix_users demo_db)
  /\ map token (matrix_users (snd (page_oauth_authorize (Authorized demo_ada)
                                     demo_session demo_db)))
     = map token (matrix_users demo_db)
  /\ forall a, a ∈ accounts demo_db ->
       a ∈ accounts (snd (page_oauth_authorize (Authorized demo_ada)
                            demo_session demo_db))
       \/ exists g, Authorized demo_ada = Authorized g
                    /\ email a = g_email g.
Proof.
  exact (authorize_keeps_users_and_other_accounts (Authorized demo_ada)
           demo_session demo_db).
Defined.

(** ** The tables *)

Lemma merge_rows_fresh a rows :
  email a ∉ map email rows -> merge_rows a rows = rows ++ [a].
Proof.
  induction rows as [|r rows IH]; simpl; [done|].
  rewrite not_elem_of_cons. intros [Hr Hrows].
  rewrite bool_decide_eq_false_2; [|done]. by rewrite IH.
Qed.

Lemma merge_rows_known a rows :
  email a ∈ map email rows ->
  map email (merge_rows a rows) = map email rows.
Proof.
  induction rows as [|r rows IH]; simpl; [by intros ?%elem_of_nil|].
  case_bool_decide as Hr; simpl; [by rewrite Hr|].
  rewrite elem_of_cons. intros [?|?]; [done|]. by rewrite IH.
Qed.

(** X21. [merge] is an insert when the email is new - it gives the database
    that the insert gives - and an update in place when the email is known:
    the emails of the table and their order stay, and the row of that email
    is the merged one. It never raises where the insert would. *)
Theorem merge_inserts_or_updates (a : Account) (db : Database) :
  (forall db', insert_account a db = Return db' -> merge a db = db')
  /\ (insert_account a db = Raise IntegrityError ->
      map email (accounts (merge a db)) = map email (accounts db)
      /\ a ∈ accounts (merge a db))
  /\ matrix_users (merge a db) = matrix_users db.
Proof.
  unfold insert_account, merge. cbn [accounts matrix_users].
  case_bool_decide as Ha; split_and!; try done.
  - intros _. split; [by apply merge_rows_known|apply merge_rows_elem].
  - intros db' [= <-]. by rewrite merge_rows_fresh.
Qed.

Lemma merge_inserts_or_updates_witness :
  (forall db', insert_account (reported_account demo_ada) demo_db = Return db'
               -> merge (reported_account demo_ada) demo_db = db')
  /\ (insert_account (reported_account demo_ada) demo_db
      = Raise IntegrityError ->
      map email (accounts (merge (reported_account demo_ada) demo_db))
      = map email (accounts demo_db)
      /\ reported_account demo_ada
         ∈ accounts (merge (reported_account demo_ada) demo_db))
  /\ matrix_users (merge (reported_account demo_ada) demo_db)
     = matrix_users demo_db.
Proof.
  exact (merge_inserts_or_updates (reported_account demo_ada) demo_db).
Defined.

(** ** The pages behind the token *)

Lemma first_by_token_Some t rows u :
  first_by_token t rows = Some u -> u ∈ rows /\ token u = t.
Proof.
  induction rows as [|r rows IH]; simpl; [done|].
  case_bool_decide as Hr.
  - intros [= <-]. split; [by left|done].
  - intros [? ?]%IH. split; [by right|done].
Qed.

Lemma first_by_token_None t rows :
  first_by_token t rows = None <-> forall u, u ∈ rows -> token u <> t.
Proof.
  induction rows as [|r rows IH]; simpl.
  - split; [|done]. by intros _ u ?%elem_of_nil.
  - case_bool_decide as Hr.
    + split; [done|]. intros H. exfalso. by apply (H r); [left|].
    + rewrite IH. split.
      * intros H u [->|?]%elem_of_cons; auto.
      * intros H u Hu. apply H. by right.
Qed.

(** X23. The profile page and the link page answer 404 exactly when no
    Matrix user carries the token of the URL. Otherwise the profile page
    shows a user of the table that carries this token, and the link page
    puts this token, and nothing else, into the session and sends the
    browser to Google; on a 404 the session is left as it was. *)
Theorem pages_behind_the_token (t : pystr) (session : FlaskSession)
    (db : Database) :
  (page_matrix_profile t db = NotFound
   <-> forall u, u ∈ matrix_users db -> token u <> t)
  /\ (forall u t', page_matrix_profile t db = ProfilePage u t' ->
        t' = t /\ u ∈ matrix_users db /\ token u = t)
  /\ (page_matrix_link t session db = (NotFound, session)
      \/ page_matrix_link t session db
         = (RedirectToGoogle, {| matrix_token := Some t |}))
  /\ (fst (page_matrix_link t session db) = NotFound
      <-> forall u, u ∈ matrix_users db -> token u <> t).
Proof.
  unfold page_matrix_profile, page_matrix_link.
  rewrite <- first_by_token_None.
  destruct (first_by_token t (matrix_users db)) as [u|] eqn:Hu.
  - split_and!; [done| |by right|done].
    intros u' t' [= <- <-]. by apply first_by_token_Some in Hu as [? ?].
  - split_and!; [done|done|by left|done].
Qed.

Lemma pages_behind_the_token_witness :
  (page_matrix_profile (lit "tok-phone") demo_db = NotFound
   <-> forall u, u ∈ matrix_users demo_db -> token u <> lit "tok-phone")
  /\ (forall u t',
        page_matrix_profile (lit "tok-phone") demo_db = ProfilePage u t' ->
        t' = lit "tok-phone" /\ u ∈ matrix_users demo_db
        /\ token u = lit "tok-phone")
  /\ (page_matrix_link (lit "tok-phone") {| matrix_token := None |} demo_db
      = (NotFound, {| matrix_token := None |})
      \/ page_matrix_link (lit "tok-phone") {| matrix_token := None |} demo_db
         = (RedirectToGoogle, {| matrix_token := Some (lit "tok-phone") |}))
  /\ (fst (page_matrix_link (lit "tok-phone") {| matrix_token := None |}
             demo_db) = NotFound
      <-> forall u, u ∈ matrix_users demo_db -> token u <> lit "tok-phone").
Proof.
  exact (pages_behind_the_token (lit "tok-phone") {| matrix_token := None |}
           demo_db).
Defined.

(** ** [__repr__] *)

(** X24. [__repr__] gives no string for any row of either table: it reads
    attributes that the classes do not have ([id] and [private] on an
    account, [account_id] on a Matrix user, [__qualname__] on both), and
    the [AttributeError] of the first of them leaves the call. *)
Theorem repr_raises_attribute_error (str repr : Repr.value -> pystr)
    (db : Database) (a : Account) (u : MatrixUser) :
  Repr.account_repr str repr db a = Raise AttributeError
  /\ Repr.matrix_user_repr str repr db u = Raise AttributeError
  /\ Repr.account_getattr db a (lit "id") = Raise AttributeError
  /\ Repr.account_getattr db a (lit "private") = Raise AttributeError
  /\ Repr.matrix_user_getattr db u (lit "account_id") = Raise AttributeError.
Proof. repeat split. Qed.

(** ** What the MAC of the registration tells apart *)

Lemma encode_utf8_app x y :
  encode_utf8 (x ++ y)
  = match encode_utf8 x, encode_utf8 y with
    | Some bx, Some by' => Some (bx ++ by')
    | _, _ => None
    end.
Proof.
  induction x as [|c x IH]; simpl.
  - by destruct (encode_utf8 y).
  - rewrite IH. destruct (utf8_codepoint c); [|done].
    destruct (encode_utf8 x); [|done].
    destruct (encode_utf8 y); [|done].
    by rewrite app_assoc.
Qed.

Lemma str_encode_nul_joined x y :
  str_encode (x ++ [0] ++ y)
  = match encode_utf8 x, encode_utf8 y with
    | Some bx, Some by' => Return (bx ++ [0] ++ by')
    | _, _ => Raise UnicodeEncodeError
    end.
Proof.
  unfold str_encode. rewrite !encode_utf8_app.
  change (encode_utf8 [0]) with (Some [0]).
  destruct (encode_utf8 x); [|done]. by destruct (encode_utf8 y).
Qed.

Lemma registration_mac_field n u d p a m :
  dict_lookup (lit "mac")
    [(lit "nonce", n); (lit "username", u); (lit "displayname", d);
     (lit "password", p); (lit "admin", a); (lit "mac", m)]
  = Some m.
Proof. reflexivity. Qed.

(** The [mac] that a run of the registration posts, from the point where
    the strings are encoded. *)
Lemma register_posted_mac shared_secret username displayname password
    reply rest sdk doc nonce key n u p :
  raise_for_status reply = Return tt ->
  body reply = Some doc ->
  getitem doc (lit "nonce") = Return nonce ->
  str_encode shared_secret = Return key ->
  encode nonce = Return n ->
  str_encode username = Return u ->
  str_encode password = Return p ->
  posted_mac (snd (register_with_shared_secret shared_secret username
                     displayname password (homeserver (reply :: rest) sdk)))
  = Some (JStr (hex (hmac_sha1_reference key
                       (n ++ [0] ++ u ++ [0] ++ p ++ [0] ++ lit "notadmin")))).
Proof.
  intros Hst Hbody Hnonce Hk Hn Hu Hp.
  unfold register_with_shared_secret, homeserver, bind, send, lift,
    response_json, ret. cbn [Matrix.http Matrix.sdk log].
  rewrite Hst, Hbody, Hnonce, Hk, Hn, Hu, Hp.
  cbn [Matrix.http Matrix.sdk log app].
  assert (Hmac : hmac_hexdigest
      (fold_left hmac_update [n; [0]; u; [0]; p; [0]; lit "notadmin"]
         (hmac_new key))
    = hex (hmac_sha1_reference key
             (n ++ [0] ++ u ++ [0] ++ p ++ [0] ++ lit "notadmin"))).
  { unfold hmac_hexdigest. rewrite hmac_stream. do 2 f_equal. }
  simpl fold_left in Hmac. rewrite Hmac.
  destruct rest as [|registration rest];
    [|destruct (raise_for_status registration) as [[]|]];
    unfold posted_mac; cbn [snd log data];
    by rewrite registration_mac_field.
Qed.

(** A run that cannot encode one of its strings, or has no nonce, posts no
    [mac]. *)
Lemma register_posts_nothing shared_secret username displayname password
    http sdk :
  (forall reply rest doc nonce key n u p,
     http = reply :: rest ->
     raise_for_status reply = Return tt ->
     body reply = Some doc ->
     getitem doc (lit "nonce") = Return nonce ->
     str_encode shared_secret = Return key ->
     encode nonce = Return n ->
     str_encode username = Return u ->
     str_encode password = Return p -> False) ->
  posted_mac (snd (register_with_shared_secret shared_secret username
                     displayname password (homeserver http sdk))) = None.
Proof.
  intros Hno.
  unfold register_with_shared_secret, homeserver, bind, send, lift,
    response_json, ret. cbn [Matrix.http Matrix.sdk log].
  destruct http as [|reply rest]; [done|].
  destruct (raise_for_status reply) as [[]|] eqn:Hst; [|done].
  destruct (body reply) as [doc|] eqn:Hbody; [|done].
  destruct (getitem doc (lit "nonce")) as [nonce|] eqn:Hnonce; [|done].
  destruct (str_encode shared_secret) eqn:Hk; [|done].
  destruct (encode nonce) eqn:Hn; [|done].
  destruct (str_encode username) eqn:Hu; [|done].
  destruct (str_encode password) eqn:Hp; [|done].
  exfalso. eapply Hno; eauto.
Qed.

Lemma str_encode_Some s b : encode_utf8 s = Some b -> str_encode s = Return b.
Proof. unfold str_encode. by intros ->. Qed.

Lemma str_encode_None s :
  encode_utf8 s = None -> str_encode s = Raise UnicodeEncodeError.
Proof. unfold str_encode. by intros ->. Qed.

(** X25. The MAC of the registration does not tell a NUL inside the
    username or the password from the NUL that separates them: registering
    the username [a NUL b] with the password [c] posts the same [mac] as
    registering the username [a] with the password [b NUL c], against the
    same homeserver and with the same secret; and when one of the two runs
    posts no registration, neither does the other. *)
Theorem register_mac_blind_to_nul
    (shared_secret a b c displayname : pystr)
    (http : list Response) (sdk : list (outcome nio_response)) :
  posted_mac (snd (register_with_shared_secret shared_secret
                     (a ++ [0] ++ b) displayname c (homeserver http sdk)))
  = posted_mac (snd (register_with_shared_secret shared_secret
                       a displayname (b ++ [0] ++ c) (homeserver http sdk))).
Proof.
  destruct http as [|reply rest];
    [by rewrite !register_posts_nothing|].
  destruct (raise_for_status reply) as [[]|e] eqn:Hst;
    [|rewrite !register_posts_nothing; [done|..];
      intros ? ? ? ? ? ? ? ? [= <- <-]; congruence].
  destruct (body reply) as [doc|] eqn:Hbody;
    [|rewrite !register_posts_nothing; [done|..];
      intros ? ? ? ? ? ? ? ? [= <- <-]; congruence].
  destruct (getitem doc (lit "nonce")) as [nonce|e] eqn:Hnonce;
    [|rewrite !register_posts_nothing; [done|..];
      intros ? ? ? ? ? ? ? ? [= <- <-]; congruence].
  destruct (str_encode shared_secret) as [key|e] eqn:Hk;
    [|rewrite !register_posts_nothing; [done|..];
      intros ? ? ? ? ? ? ? ? [= <- <-]; congruence].
  destruct (encode nonce) as [n|e] eqn:Hn;
    [|rewrite !register_posts_nothing; [done|..];
      intros ? ? ? ? ? ? ? ? [= <- <-]; congruence].
  pose proof (str_encode_nul_joined a b) as Hab.
  pose proof (str_encode_nul_joined b c) as Hbc.
  destruct (encode_utf8 a) as [a'|] eqn:Ha;
    [apply str_encode_Some in Ha|apply str_encode_None in Ha];
    (destruct (encode_utf8 b) as [b'|] eqn:Hb);
    (destruct (encode_utf8 c) as [c'|] eqn:Hc;
     [apply str_encode_Some in Hc|apply str_encode_None in Hc]);
    cbv beta iota in Hab, Hbc;
    try (rewrite !register_posts_nothing; [done|..];
         intros ? ? ? ? ? ? ? ? [= <- <-] ? ? ? ? ? Hu Hp;
         unfold codepoint in *; congruence).
  rewrite (register_posted_mac _ _ _ _ _ _ _ _ _ _ _ _ _ Hst Hbody Hnonce
             Hk Hn Hab Hc).
  rewrite (register_posted_mac _ _ _ _ _ _ _ _ _ _ _ _ _ Hst Hbody Hnonce
             Hk Hn Ha Hbc).
  by rewrite <- !app_assoc.
Qed.

(** Both registrations of the sample do post, and post the same [mac]. *)
Example register_mac_blind_to_nul_demo :
  posted_mac (snd (register_with_shared_secret (lit "secret")
                     (lit "pep" ++ [0] ++ lit "per") (lit "Pepper")
                     (lit "pass") (homeserver demo_register_http [])))
  = Some (JStr (lit "0c162f6b40e5f6fbce7a70841258558d2823a11f"))
  /\ posted_mac (snd (register_with_shared_secret (lit "secret")
                        (lit "pep") (lit "Pepper")
                        (lit "per" ++ [0] ++ lit "pass")
                        (homeserver demo_register_http [])))
     = Some (JStr (lit "0c162f6b40e5f6fbce7a70841258558d2823a11f")).
Proof. split; vm_compute; reflexivity. Qed.

(** ** [pm_slide], read backwards *)

Lemma pm_slide_scan_Some user_id values found :
  pm_slide_scan user_id values = Some found ->
  exists before room after,
    values = before ++ room :: after
    /\ room_id room = found
    /\ reused_room user_id room
    /\ Forall (fun r => ~ reused_room user_id r) before.
Proof.
  induction values as [|r values IH]; simpl; [done|].
  destruct (is_pm_room user_id r) eqn:E.
  - intros [= <-]. exists [], r, values.
    split; [done|]. split; [done|].
    split; [by apply is_pm_room_spec|constructor].
  - intros (before & room & after & -> & Hid & Hroom & Hbefore)%IH.
    exists (r :: before), room, after.
    split; [done|]. split; [done|]. split; [done|].
    constructor; [|done]. intros H%is_pm_room_spec. congruence.
Qed.

Lemma pm_slide_scan_None user_id values :
  pm_slide_scan user_id values = None ->
  Forall (fun r => ~ reused_room user_id r) values.
Proof.
  induction values as [|r values IH]; simpl; [constructor|].
  destruct (is_pm_room user_id r) eqn:E; [done|].
  intros Hrest. constructor; [|by apply IH].
  intros H%is_pm_room_spec. congruence.
Qed.

(** X26. Whatever the state of the homeserver, a room id that [pm_slide]
    returns is either the id of the first room of the client that passes its
    test, and then nothing was asked of the homeserver; or no room of the
    client passes and the id is the one of the room that the homeserver has
    just created on the single [room_create] request, which invites
    [user_id] alone into a direct room. The rooms that pass are those that
    are direct or a group, have [user_id] among their members and count 2 in
    the sum of the two dicts, where an invited member counts twice: two
    joined members and nobody invited, or one invited member alone. *)
Theorem pm_slide_returns_pm_room_or_created (self : ExtendedClient)
    (user_id : pystr) (hs hs' : Homeserver) (found : pystr) :
  pm_slide self user_id hs = (Some (Return found), hs') ->
  (hs' = hs
   /\ exists before room after,
        map snd (rooms self) = before ++ room :: after
        /\ room_id room = found
        /\ reused_room user_id room
        /\ Forall (fun r => ~ reused_room user_id r) before)
  \/ (Forall (fun r => ~ reused_room user_id r) (map snd (rooms self))
      /\ exists rest,
           sdk hs = Return (RoomCreateResponse found) :: rest
           /\ hs' = {| http := http hs; sdk := rest;
                       log := log hs ++ [RoomCreate [user_id] true] |}).
Proof.
  unfold pm_slide.
  destruct (pm_slide_scan user_id (map snd (rooms self))) as [r|] eqn:Hscan.
  - intros [= <- <-]. left. split; [done|].
    by apply pm_slide_scan_Some.
  - apply pm_slide_scan_None in Hscan.
    unfold bind, room_create, sdk_call.
    destruct (sdk hs) as [|[[]|] rest]; try discriminate.
    intros [= <- <-]. right. split; [done|]. by exists rest.
Qed.

(** The theorem on the sample client, for Ada: the room where her
    invitation is pending is passed over, the one she has joined is
    returned. *)
Lemma pm_slide_returns_pm_room_or_created_witness :
  (homeserver [] [] = homeserver [] []
   /\ exists before room after,
        map snd (rooms demo_client_rooms) = before ++ room :: after
        /\ room_id room = lit "!ada2:example.org"
        /\ reused_room (lit "@ada:example.org") room
        /\ Forall (fun r => ~ reused_room (lit "@ada:example.org") r) before)
  \/ (Forall (fun r => ~ reused_room (lit "@ada:example.org") r)
        (map snd (rooms demo_client_rooms))
      /\ exists rest,
           sdk (homeserver [] [])
           = Return (RoomCreateResponse (lit "!ada2:example.org")) :: rest
           /\ homeserver [] []
              = {| http := http (homeserver [] []); sdk := rest;
                   log := log (homeserver [] [])
                          ++ [RoomCreate [lit "@ada:example.org"] true] |}).
Proof.
  apply (pm_slide_returns_pm_room_or_created demo_client_rooms
           (lit "@ada:example.org") (homeserver [] [])
           (homeserver [] []) (lit "!ada2:example.org")).
  vm_compute. reflexivity.
Defined.
